(** * JobLens: ATS detection, application-flow optimizer and CSV batch runner

    A shallow embedding of [src/ats/application_flow_optimizer.py] and
    [src/ats/csv_applicator.py], with the properties of the specification
    stated and settled against it.

    Conventions of the embedding.
    - A Python [str] is a [string] of ASCII characters; [lower], [strip] and
      the [in] test are given on that alphabet.
    - A Python [float] is a binary64 number, Rocq's primitive [float]: the
      confidence weights are added with the rounding the interpreter uses.
    - A Python exception is a value [exn]; a call that may raise returns
      [res A]. [try]/[except Exception] is [try_except].
    - A dictionary with string keys is a [gmap string _]; where the source
      iterates one (the pattern catalog, a field mapping) it is kept as an
      association list in declaration order.
    - The browser page, the document generator, the submitters and the clock
      are external: they are oracles whose answers, failures included, are
      inputs of the model.
    - Console output is presentation and is left out, except where it is the
      only trace of what the code attempted (the field filler, the CSV
      reader). *)

From Stdlib Require Import Floats.PrimFloat Floats.SpecFloat Floats.FloatOps.
From Stdlib Require Import ZArith Ascii String.
From stdpp Require Import gmap strings list pretty.

Set Warnings "-inexact-float".
Set Default Proof Using "Type".

Open Scope string_scope.
Open Scope list_scope.
Open Scope nat_scope.

(** ** Python primitives *)

Module Py.

(** An exception: its class and its message ([str(e)]). *)
Record exn := Exn { exn_class : string; exn_msg : string }.

Inductive res (A : Type) : Type :=
| Ok (a : A)
| Raise (e : exn).
Arguments Ok {A} a.
Arguments Raise {A} e.

Definition bind {A B} (m : res A) (k : A -> res B) : res B :=
  match m with
  | Ok a => k a
  | Raise e => Raise e
  end.

(** [try: body  except Exception as e: handler e]. *)
Definition try_except {A} (body : res A) (handler : exn -> A) : A :=
  match body with
  | Ok a => a
  | Raise e => handler e
  end.

Definition is_ok {A} (m : res A) : bool :=
  match m with Ok _ => true | Raise _ => false end.

(** [None.attr] for an attribute the object [None] does not have. *)
Definition attribute_error (attr : string) : exn :=
  Exn "AttributeError" ("'NoneType' object has no attribute '" +:+ attr +:+ "'").

(** The double quote, for selectors that carry one. *)
Definition dq : string := String (ascii_of_nat 34) EmptyString.

(** Truth value of a string: [bool(s)]. *)
Definition truthy (s : string) : bool :=
  match s with
  | EmptyString => false
  | String _ _ => true
  end.

(** [c.lower()] on one ASCII character. *)
Definition lower_ascii (c : ascii) : ascii :=
  let n := nat_of_ascii c in
  if (65 <=? n)%nat && (n <=? 90)%nat then ascii_of_nat (n + 32) else c.

(** [s.lower()]. *)
Fixpoint lower (s : string) : string :=
  match s with
  | EmptyString => EmptyString
  | String c t => String (lower_ascii c) (lower t)
  end.

(** [c.isspace()] on ASCII: tab, line feed, vertical tab, form feed, carriage
    return, the four separators 28..31 and the space. *)
Definition is_space (c : ascii) : bool :=
  let n := nat_of_ascii c in
  ((9 <=? n)%nat && (n <=? 13)%nat) || ((28 <=? n)%nat && (n <=? 32)%nat).

Fixpoint lstrip (s : string) : string :=
  match s with
  | EmptyString => EmptyString
  | String c t => if is_space c then lstrip t else s
  end.

Fixpoint rstrip (s : string) : string :=
  match s with
  | EmptyString => EmptyString
  | String c t =>
      match rstrip t with
      | EmptyString => if is_space c then EmptyString else String c EmptyString
      | t' => String c t'
      end
  end.

(** [s.strip()]. *)
Definition strip (s : string) : string := rstrip (lstrip s).

(** [needle in hay] on strings. *)
Fixpoint contains (needle hay : string) : bool :=
  String.prefix needle hay ||
  match hay with
  | EmptyString => false
  | String _ t => contains needle t
  end.

(** [float(n)] for a non-negative integer: the nearest binary64 number, ties
    to even. *)
Definition float_of_nat (n : nat) : float :=
  SF2Prim (binary_normalize prec emax (Z.of_nat n) 0%Z false).

End Py.

Import Py.

(** ** The missing helper module [src/utils/enhanced_error_tolerance.py] *)

Module ErrorTolerance.

(** Modelled from the spec: the decorator [with_retry], whose module is not
    among the repository's files. The spec calls it a bounded retry of the
    whole call: the call is made again while it raises, [max_retries] times at
    most (and once at least); the exception of the last attempt is raised. *)
Fixpoint with_retry {A} (max_retries : nat) (call : unit -> res A) : res A :=
  match call tt with
  | Ok a => Ok a
  | Raise e =>
      match max_retries with
      | S (S _ as n) => with_retry n call
      | _ => Raise e
      end
  end.

(** Modelled from the spec: [safe_execute(fn, default_return=d)] of the same
    missing module: a probe that fails is absorbed at the call site and the
    default stands for its answer. *)
Definition safe_execute {A} (call : res A) (default_return : A) : A :=
  match call with
  | Ok a => a
  | Raise _ => default_return
  end.

End ErrorTolerance.

Import ErrorTolerance.

(** ** [application_flow_optimizer.py] *)

Module Optimizer.

(** *** Data *)

Record ApplicationMetrics := {
  total_attempts : nat;
  successful_applications : nat;
  failed_applications : nat;
  manual_reviews_required : nat;
  average_application_time : float;
  ats_detection_accuracy : float;
  form_prefill_success_rate : float
}.

(** [ApplicationMetrics()]: the dataclass defaults. *)
Definition new_metrics : ApplicationMetrics :=
  {| total_attempts := 0; successful_applications := 0;
     failed_applications := 0; manual_reviews_required := 0;
     average_application_time := 0%float; ats_detection_accuracy := 0%float;
     form_prefill_success_rate := 0%float |}.

Record ATSPattern := {
  url_patterns : list string;
  dom_selectors : list string;
  text_indicators : list string;
  form_patterns : list string
}.

(** [s] between double quotes. *)
Definition q (s : string) : string := dq +:+ s +:+ dq.

(** [_load_ats_patterns]: the catalog, in the order the dictionary is
    declared (and iterated). *)
Definition _load_ats_patterns : list (string * ATSPattern) :=
  [ ("workday",
     {| url_patterns := ["workday.com"; "myworkday.com"; "wd1.myworkdayjobs.com"];
        dom_selectors := ["[data-automation-id]"; ".css-1hwfws3"; ".workday"];
        text_indicators := ["workday"; "powered by workday"];
        form_patterns := ["input[data-automation-id]"] |});
    ("greenhouse",
     {| url_patterns := ["greenhouse.io"; "boards.greenhouse.io"];
        dom_selectors := [".application-form"; ".greenhouse-form"];
        text_indicators := ["greenhouse"; "powered by greenhouse"];
        form_patterns := ["input[name*=" +:+ q "application" +:+ "]"] |});
    ("lever",
     {| url_patterns := ["lever.co"; "jobs.lever.co"];
        dom_selectors := [".application-form"; ".lever-form"];
        text_indicators := ["lever"; "powered by lever"];
        form_patterns := ["input[name*=" +:+ q "lever" +:+ "]"] |});
    ("bamboohr",
     {| url_patterns := ["bamboohr.com"; "bamboohr.co"];
        dom_selectors := [".bamboo-form"; ".application-container"];
        text_indicators := ["bamboohr"; "bamboo hr"];
        form_patterns := ["input[name*=" +:+ q "bamboo" +:+ "]"] |}) ].

(** A field mapping: logical field name to its candidate selectors, tried in
    order. *)
Definition field_mapping : Type := list (string * list string).

(** [_load_form_mappings]. *)
Definition _load_form_mappings : list (string * field_mapping) :=
  [ ("workday",
     [ ("first_name", ["input[data-automation-id*=" +:+ q "firstName" +:+ "]";
                       "input[name*=" +:+ q "firstName" +:+ "]"]);
       ("last_name", ["input[data-automation-id*=" +:+ q "lastName" +:+ "]";
                      "input[name*=" +:+ q "lastName" +:+ "]"]);
       ("email", ["input[data-automation-id*=" +:+ q "email" +:+ "]";
                  "input[type=" +:+ q "email" +:+ "]"]);
       ("phone", ["input[data-automation-id*=" +:+ q "phone" +:+ "]";
                  "input[type=" +:+ q "tel" +:+ "]"]);
       ("resume", ["input[data-automation-id*=" +:+ q "resume" +:+ "]";
                   "input[type=" +:+ q "file" +:+ "]"]);
       ("cover_letter", ["input[data-automation-id*=" +:+ q "coverLetter" +:+ "]"]) ]);
    ("greenhouse",
     [ ("first_name", ["input[name*=" +:+ q "first_name" +:+ "]"; "#first_name"]);
       ("last_name", ["input[name*=" +:+ q "last_name" +:+ "]"; "#last_name"]);
       ("email", ["input[name*=" +:+ q "email" +:+ "]"; "#email"]);
       ("phone", ["input[name*=" +:+ q "phone" +:+ "]"; "#phone"]);
       ("resume", ["input[name*=" +:+ q "resume" +:+ "]";
                   "input[type=" +:+ q "file" +:+ "]"]);
       ("cover_letter", ["input[name*=" +:+ q "cover_letter" +:+ "]"]) ]);
    ("generic",
     [ ("first_name", ["input[name*=" +:+ q "first" +:+ "]"; "#firstName"; "#first_name"]);
       ("last_name", ["input[name*=" +:+ q "last" +:+ "]"; "#lastName"; "#last_name"]);
       ("email", ["input[type=" +:+ q "email" +:+ "]"; "#email";
                  "input[name*=" +:+ q "email" +:+ "]"]);
       ("phone", ["input[type=" +:+ q "tel" +:+ "]"; "#phone";
                  "input[name*=" +:+ q "phone" +:+ "]"]);
       ("resume", ["input[type=" +:+ q "file" +:+ "]";
                   "input[name*=" +:+ q "resume" +:+ "]"]);
       ("cover_letter", ["input[name*=" +:+ q "cover" +:+ "]";
                         "input[name*=" +:+ q "letter" +:+ "]"]) ]) ].

(** [d.get(k)] / [d[k]] on a dictionary kept in declaration order. *)
Fixpoint assoc {A} (k : string) (d : list (string * A)) : option A :=
  match d with
  | [] => None
  | (k', v) :: rest => if String.eqb k k' then Some v else assoc k rest
  end.

(** *** The page capability

    An element handle is a number. The page answers selector queries (or
    raises), and holds the state of the elements the handles point to. A
    handle with no state behind it is a detached element: reading or filling
    it raises. *)

Record element := {
  el_value : string;          (* what the control currently holds *)
  el_input_value : bool;      (* input_value() returns (else it raises) *)
  el_fill : bool;             (* fill(v) succeeds (else it raises) *)
  el_is_visible : res bool;   (* is_visible() *)
  el_click : bool             (* click() succeeds (else it raises) *)
}.

Record page := {
  pg_content : res string;                           (* content() *)
  pg_query_selector_all : string -> res (list nat);  (* query_selector_all(s) *)
  pg_query_selector : string -> res (option nat);    (* query_selector(s) *)
  pg_wait_for_timeout : bool;                        (* wait_for_timeout(ms) returns *)
  pg_elements : gmap nat element;
  pg_clicked : list nat                              (* handles clicked so far *)
}.

Definition playwright_error (what : string) : exn := Exn "Error" what.

Definition input_value (pg : page) (h : nat) : res string :=
  match pg_elements pg !! h with
  | Some el =>
      if el_input_value el then Ok (el_value el)
      else Raise (playwright_error "input_value")
  | None => Raise (playwright_error "detached")
  end.

Definition set_value (v : string) (el : element) : element :=
  {| el_value := v; el_input_value := el_input_value el; el_fill := el_fill el;
     el_is_visible := el_is_visible el; el_click := el_click el |}.

Definition with_elements (pg : page) (els : gmap nat element) : page :=
  {| pg_content := pg_content pg;
     pg_query_selector_all := pg_query_selector_all pg;
     pg_query_selector := pg_query_selector pg;
     pg_wait_for_timeout := pg_wait_for_timeout pg;
     pg_elements := els; pg_clicked := pg_clicked pg |}.

Definition with_clicked (pg : page) (h : nat) : page :=
  {| pg_content := pg_content pg;
     pg_query_selector_all := pg_query_selector_all pg;
     pg_query_selector := pg_query_selector pg;
     pg_wait_for_timeout := pg_wait_for_timeout pg;
     pg_elements := pg_elements pg; pg_clicked := (pg_clicked pg ++ [h])%list |}.

(** [element.fill(v)]: the control holds [v] afterwards, or the call raises
    and nothing changed. *)
Definition fill (pg : page) (h : nat) (v : string) : res page :=
  match pg_elements pg !! h with
  | Some el =>
      if el_fill el then Ok (with_elements pg (<[h := set_value v el]> (pg_elements pg)))
      else Raise (playwright_error "fill")
  | None => Raise (playwright_error "detached")
  end.

Definition is_visible (pg : page) (h : nat) : res bool :=
  match pg_elements pg !! h with
  | Some el => el_is_visible el
  | None => Raise (playwright_error "detached")
  end.

Definition click (pg : page) (h : nat) : res page :=
  match pg_elements pg !! h with
  | Some el =>
      if el_click el then Ok (with_clicked pg h)
      else Raise (playwright_error "click")
  | None => Raise (playwright_error "detached")
  end.

Definition wait_for_timeout (pg : page) : res unit :=
  if pg_wait_for_timeout pg then Ok tt else Raise (playwright_error "wait_for_timeout").

(** *** [detect_ats_system] *)

(** [job_url.lower()]; the argument may be [None]. *)
Definition url_lower (job_url : option string) : res string :=
  match job_url with
  | Some u => Ok (lower u)
  | None => Raise (attribute_error "lower")
  end.

(** The inner loop of the URL pass: [for url_pattern in patterns['url_patterns']]. *)
Fixpoint url_patterns_loop (job_url : option string) (ps : list string) : res bool :=
  match ps with
  | [] => Ok false
  | url_pattern :: rest =>
      bind (url_lower job_url) (fun u =>
        if contains url_pattern u then Ok true
        else url_patterns_loop job_url rest)
  end.

(** The URL pass: the first vendor, in catalog order, one of whose substrings
    occurs in the lower-cased URL. *)
Fixpoint url_loop (job_url : option string) (pats : list (string * ATSPattern))
  : res (option string) :=
  match pats with
  | [] => Ok None
  | (ats_name, patterns) :: rest =>
      bind (url_patterns_loop job_url (url_patterns patterns)) (fun hit =>
        if hit then Ok (Some ats_name) else url_loop job_url rest)
  end.

(** One selector probe of the DOM pass: [weight] is added when the query
    answers with at least one element; a probe that raises adds nothing. *)
Definition probe_step (pg : page) (weight : float) (confidence : float)
  (selector : string) : float :=
  match pg_query_selector_all pg selector with
  | Ok (_ :: _) => (confidence + weight)%float
  | Ok [] => confidence
  | Raise _ => confidence
  end.

(** One text indicator: [if indicator.lower() in page_content.lower()]. *)
Definition text_step (page_content : string) (confidence : float)
  (indicator : string) : float :=
  if contains (lower indicator) (lower page_content)
  then (confidence + 0.2)%float else confidence.

(** The body of the vendor loop up to the threshold test. *)
Definition vendor_confidence (pg : page) (page_content : string)
  (patterns : ATSPattern) : float :=
  let confidence := 0%float in
  let confidence := fold_left (probe_step pg 0.3) (dom_selectors patterns) confidence in
  let confidence := fold_left (text_step page_content) (text_indicators patterns) confidence in
  fold_left (probe_step pg 0.2) (form_patterns patterns) confidence.

(** The DOM pass with its early return, and the generic fallback. *)
Fixpoint dom_loop (pg : page) (page_content : string)
  (pats : list (string * ATSPattern)) : string * float :=
  match pats with
  | [] => ("generic", 0.3%float)
  | (ats_name, patterns) :: rest =>
      let confidence := vendor_confidence pg page_content patterns in
      if (0.6 <=? confidence)%float then (ats_name, confidence)
      else dom_loop pg page_content rest
  end.

(** The [try] block of [detect_ats_system]. *)
Definition detect_try (pats : list (string * ATSPattern)) (pg : page)
  (job_url : option string) : res (string * float) :=
  bind (url_loop job_url pats) (fun by_url =>
    match by_url with
    | Some ats_name => Ok (ats_name, 0.9%float)
    | None =>
        let page_content := safe_execute (pg_content pg) "" in
        Ok (dom_loop pg page_content pats)
    end).

(** The decorated method: the body never lets an exception out, so the retry
    wrapper sees one successful call. *)
Definition detect_ats_system_with (pats : list (string * ATSPattern)) (pg : page)
  (job_url : option string) : res (string * float) :=
  with_retry 2 (fun _ =>
    Ok (try_except (detect_try pats pg job_url) (fun _ => ("generic", 0.1%float)))).

Definition detect_ats_system : page -> option string -> res (string * float) :=
  detect_ats_system_with _load_ats_patterns.

(** *** The field filler *)

(** [_try_fill_field]: the candidates are tried in order; the first one that
    resolves to an element whose value reads as empty, and that accepts the
    fill, ends the search. Every failure inside the loop body is absorbed by
    [except Exception: continue]. *)
Fixpoint _try_fill_field (pg : page) (selectors : list string) (value : string)
  : bool * page :=
  match selectors with
  | [] => (false, pg)
  | selector :: rest =>
      match pg_query_selector pg selector with
      | Ok (Some element) =>
          let current_value := safe_execute (input_value pg element) "" in
          if truthy current_value then _try_fill_field pg rest value
          else
            match fill pg element value with
            | Ok pg' => (true, pg')
            | Raise _ => _try_fill_field pg rest value
            end
      | Ok None => _try_fill_field pg rest value
      | Raise _ => _try_fill_field pg rest value
      end
  end.

(** What [_fill_form_fields] prints for a field it tried. *)
Inductive fill_report :=
| Filled (field_name value : string)
| CouldNotFill (field_name : string).

Definition a_profile : Type := option (gmap string string).

(** [profile.get(key, default)]; the profile may be [None]. *)
Definition profile_get (profile : a_profile) (key default_value : string) : res string :=
  match profile with
  | Some p => Ok (default default_value (p !! key))
  | None => Raise (attribute_error "get")
  end.

(** The loop of [_fill_form_fields] over [mappings.items()]. *)
Fixpoint fill_loop (profile_data : gmap string string) (mappings : field_mapping)
  (pg : page) (filled_fields : gmap string string) (out : list fill_report)
  : gmap string string * page * list fill_report :=
  match mappings with
  | [] => (filled_fields, pg, out)
  | (field_name, selectors) :: rest =>
      match profile_data !! field_name with
      | Some value =>
          if truthy value then
            let '(success, pg') := _try_fill_field pg selectors value in
            if success
            then fill_loop profile_data rest pg' (<[field_name := value]> filled_fields)
                   (out ++ [Filled field_name value])%list
            else fill_loop profile_data rest pg' filled_fields
                   (out ++ [CouldNotFill field_name])%list
          else fill_loop profile_data rest pg filled_fields out
      | None => fill_loop profile_data rest pg filled_fields out
      end
  end.

(** [_fill_form_fields]: the four profile reads come first and are the only
    place that can raise; the page is untouched when they do. *)
Definition _fill_form_fields (pg : page) (profile : a_profile) (mappings : field_mapping)
  : res (gmap string string * page * list fill_report) :=
  bind (profile_get profile "first_name" "") (fun first_name =>
  bind (profile_get profile "last_name" "") (fun last_name =>
  bind (profile_get profile "email" "Nirajan.tech@gmail.com") (fun email =>
  bind (profile_get profile "phone" "") (fun phone =>
    let profile_data : gmap string string :=
      <["phone" := phone]> (<["email" := email]> (<["last_name" := last_name]>
        (<["first_name" := first_name]> ∅))) in
    Ok (fill_loop profile_data mappings pg ∅ []))))).

(** *** Strategies *)

(** A result dictionary: every key is optional, as [result.get] reads it. *)
Record result := {
  r_status : option string;
  r_strategy : option string;
  r_fields_filled : option (gmap string string);
  r_confidence : option float;
  r_error : option string;
  r_application_duration : option float;
  r_ats_system : option string;
  r_ats_confidence : option float
}.

Definition applied_result (strategy : string) (filled_fields : gmap string string)
  (confidence : float) : result :=
  {| r_status := Some "applied"; r_strategy := Some strategy;
     r_fields_filled := Some filled_fields; r_confidence := Some confidence;
     r_error := None; r_application_duration := None;
     r_ats_system := None; r_ats_confidence := None |}.

Definition failed_result (strategy : string) (e : exn) (confidence : float) : result :=
  {| r_status := Some "failed"; r_strategy := Some strategy;
     r_fields_filled := None; r_confidence := Some confidence;
     r_error := Some (exn_msg e); r_application_duration := None;
     r_ats_system := None; r_ats_confidence := None |}.

Definition key_error (k : string) : exn := Exn "KeyError" ("'" +:+ k +:+ "'").

(** [self.form_field_mappings[name]]. *)
Definition mappings_index (name : string) : res field_mapping :=
  match assoc name _load_form_mappings with
  | Some m => Ok m
  | None => Raise (key_error name)
  end.

(** [self.form_field_mappings.get(name, self.form_field_mappings['generic'])]:
    the default is evaluated first. *)
Definition mappings_get_or_generic (name : string) : res field_mapping :=
  bind (mappings_index "generic") (fun generic =>
    Ok (default generic (assoc name _load_form_mappings))).

(** The loop of [_handle_workday_specifics] over the next/continue buttons:
    the first visible one is clicked, then the page is left to settle; any
    failure moves on to the next selector. *)
Fixpoint next_buttons_loop (pg : page) (selectors : list string) : page :=
  match selectors with
  | [] => pg
  | selector :: rest =>
      match pg_query_selector pg selector with
      | Ok (Some button) =>
          match is_visible pg button with
          | Ok true =>
              match click pg button with
              | Ok pg' =>
                  match wait_for_timeout pg' with
                  | Ok _ => pg'
                  | Raise _ => next_buttons_loop pg' rest
                  end
              | Raise _ => next_buttons_loop pg rest
              end
          | Ok false => next_buttons_loop pg rest
          | Raise _ => next_buttons_loop pg rest
          end
      | Ok None => next_buttons_loop pg rest
      | Raise _ => next_buttons_loop pg rest
      end
  end.

Definition next_buttons : list string :=
  [ "button[data-automation-id*=" +:+ q "next" +:+ "]";
    "button[data-automation-id*=" +:+ q "continue" +:+ "]";
    "button:has-text(" +:+ q "Next" +:+ ")";
    "button:has-text(" +:+ q "Continue" +:+ ")" ].

Definition _handle_workday_specifics (pg : page) (profile : a_profile) : page :=
  next_buttons_loop pg next_buttons.

(** The common shape of the five strategies: a [try] block that looks the
    mapping up, fills the form and runs the vendor's extra step, and an
    [except] that turns the exception into a failed result. An exception can
    only come from the look-up or from the profile reads, before the page is
    touched. *)
Definition run_strategy (strategy : string) (mappings : res field_mapping)
  (after_fill : page -> a_profile -> page)
  (profile : a_profile) (pg : page) (confidence : float) : result * page :=
  match bind mappings (fun m => _fill_form_fields pg profile m) with
  | Ok (filled_fields, pg', _) =>
      (applied_result strategy filled_fields confidence, after_fill pg' profile)
  | Raise e => (failed_result strategy e confidence, pg)
  end.

Definition a_job : Type := gmap string string.

Definition _apply_workday_strategy (job : a_job) :=
  run_strategy "workday" (mappings_index "workday") _handle_workday_specifics.

Definition _apply_greenhouse_strategy (job : a_job) :=
  run_strategy "greenhouse" (mappings_index "greenhouse") (fun pg _ => pg).

Definition _apply_lever_strategy (job : a_job) :=
  run_strategy "lever" (mappings_get_or_generic "lever") (fun pg _ => pg).

Definition _apply_bamboohr_strategy (job : a_job) :=
  run_strategy "bamboohr" (mappings_get_or_generic "bamboohr") (fun pg _ => pg).

Definition _apply_generic_strategy (job : a_job) :=
  run_strategy "generic" (mappings_index "generic") (fun pg _ => pg).

(** The type of an entry of the dispatch table as the dispatcher sees it: a
    callable that may raise, and that may have written to the page before. *)
Definition strategy_func : Type :=
  a_job -> a_profile -> page -> float -> res result * page.

Definition total_strategy
  (f : a_job -> a_profile -> page -> float -> result * page) : strategy_func :=
  fun job profile pg confidence =>
    let '(r, pg') := f job profile pg confidence in (Ok r, pg').

(** [self.strategies]. *)
Definition strategies : list (string * strategy_func) :=
  [ ("workday", total_strategy _apply_workday_strategy);
    ("greenhouse", total_strategy _apply_greenhouse_strategy);
    ("lever", total_strategy _apply_lever_strategy);
    ("bamboohr", total_strategy _apply_bamboohr_strategy);
    ("generic", total_strategy _apply_generic_strategy) ].

(** *** Metrics *)

(** [(old * (n - 1) + x) / n] with [n] the attempt count after the increment. *)
Definition running_mean (old : float) (n : nat) (x : float) : float :=
  let total := (old * float_of_nat (n - 1))%float in
  ((total + x) / float_of_nat n)%float.

(** [max(len(self.form_field_mappings['generic']), 1)]. *)
Definition generic_field_count : nat :=
  Nat.max (length (default [] (assoc "generic" _load_form_mappings))) 1.

(** [_update_application_metrics]. The quotient of the two lengths is taken on
    their conversions to [float], which is what the true division of two small
    integers returns. *)
Definition _update_application_metrics (m : ApplicationMetrics) (r : result)
  : ApplicationMetrics :=
  let total := S (total_attempts m) in
  let status := default "unknown" (r_status r) in
  let duration := default 0%float (r_application_duration r) in
  let confidence := default 0%float (r_ats_confidence r) in
  let fields_filled := default ∅ (r_fields_filled r) in
  {| total_attempts := total;
     successful_applications :=
       if String.eqb status "applied" then S (successful_applications m)
       else successful_applications m;
     failed_applications :=
       if String.eqb status "applied" then failed_applications m
       else if String.eqb status "failed" then S (failed_applications m)
       else failed_applications m;
     manual_reviews_required :=
       if String.eqb status "applied" then manual_reviews_required m
       else if String.eqb status "failed" then manual_reviews_required m
       else if String.eqb status "manual_review" then S (manual_reviews_required m)
       else manual_reviews_required m;
     average_application_time :=
       if (0 <? duration)%float
       then running_mean (average_application_time m) total duration
       else average_application_time m;
     ats_detection_accuracy :=
       if (0 <? confidence)%float
       then running_mean (ats_detection_accuracy m) total confidence
       else ats_detection_accuracy m;
     form_prefill_success_rate :=
       if bool_decide (fields_filled = ∅) then form_prefill_success_rate m
       else
         let success_rate :=
           (float_of_nat (size fields_filled) / float_of_nat generic_field_count)%float in
         running_mean (form_prefill_success_rate m) total success_rate |}.

(** The metrics after a sequence of recorded results. *)
Definition record_all (m : ApplicationMetrics) (rs : list result) : ApplicationMetrics :=
  fold_left _update_application_metrics rs m.

(** *** The dispatcher *)

(** The three assignments the dispatcher makes on the strategy's result. *)
Definition with_timing (r : result) (duration : float) (ats_system : string)
  (confidence : float) : result :=
  {| r_status := r_status r; r_strategy := r_strategy r;
     r_fields_filled := r_fields_filled r; r_confidence := r_confidence r;
     r_error := r_error r; r_application_duration := Some duration;
     r_ats_system := Some ats_system; r_ats_confidence := Some confidence |}.

(** The dictionary built in the dispatcher's own [except]. *)
Definition dispatcher_failed (e : exn) (ats_system : string) (confidence : float)
  (duration : float) : result :=
  {| r_status := Some "failed"; r_strategy := None; r_fields_filled := None;
     r_confidence := None; r_error := Some (exn_msg e);
     r_application_duration := Some duration;
     r_ats_system := Some ats_system; r_ats_confidence := Some confidence |}.

(** The two readings of [time.time()]: on entry, and when the duration is
    computed. *)
Definition a_clock : Type := (float * float)%type.

(** The body of [optimize_application_flow] over a dispatch table. *)
Definition optimize_body (table : list (string * strategy_func))
  (metrics : ApplicationMetrics) (job : a_job) (profile : a_profile) (pg : page)
  (clock : a_clock) : res (result * page * ApplicationMetrics) :=
  let '(start_time, now) := clock in
  bind (detect_ats_system pg (Some (default "" (job !! "url")))) (fun detected =>
  let '(ats_system, confidence) := detected in
  bind (match assoc "generic" table with
        | Some f => Ok f
        | None => Raise (key_error "generic")
        end) (fun generic =>
  let strategy := default generic (assoc ats_system table) in
  match strategy job profile pg confidence with
  | (Ok r, pg') =>
      let duration := (now - start_time)%float in
      let r := with_timing r duration ats_system confidence in
      Ok (r, pg', _update_application_metrics metrics r)
  | (Raise e, pg') =>
      Ok (dispatcher_failed e ats_system confidence (now - start_time)%float, pg', metrics)
  end)).

Definition optimize_application_flow_with (table : list (string * strategy_func))
  (metrics : ApplicationMetrics) (job : a_job) (profile : a_profile) (pg : page)
  (clock : a_clock) : res (result * page * ApplicationMetrics) :=
  with_retry 1 (fun _ => optimize_body table metrics job profile pg clock).

(** [optimize_application_flow] of an optimizer whose metrics are [metrics]:
    the result, the page as the strategy left it, and the metrics afterwards. *)
Definition optimize_application_flow :
  ApplicationMetrics -> a_job -> a_profile -> page -> a_clock ->
  res (result * page * ApplicationMetrics) :=
  optimize_application_flow_with strategies.

(** One call of the dispatcher: its arguments and the clock readings. *)
Record invocation := {
  i_job : a_job;
  i_profile : a_profile;
  i_page : page;
  i_clock : a_clock
}.

(** A session: the calls made in turn on one optimizer. *)
Fixpoint run_session (metrics : ApplicationMetrics) (calls : list invocation)
  : res (list result * ApplicationMetrics) :=
  match calls with
  | [] => Ok ([], metrics)
  | c :: rest =>
      bind (optimize_application_flow metrics (i_job c) (i_profile c) (i_page c) (i_clock c))
        (fun out =>
           let '(r, _, metrics') := out in
           bind (run_session metrics' rest) (fun tail =>
             let '(rs, final) := tail in Ok (r :: rs, final)))
  end.

End Optimizer.

(** ** [csv_applicator.py] *)

Module CsvApplicator.

Import Optimizer.

(** *** The outside world

    Document generation, ATS modules, the application log and the session
    file live outside this file. They are oracles over a world state [W]: each
    call may answer, raise, and change the world, so that two calls need not
    agree. [Sub] is the type of a submitter object. *)

Record services (W Sub : Type) := {
  (* src.utils.document_generator.customize(job, profile) *)
  customize : a_job -> gmap string string -> W -> res (string * string) * W;
  (* src.ats.detect(url) *)
  detect : string -> W -> res (option string) * W;
  (* src.ats.get_submitter(name, ctx); [None] is a call that returns None *)
  get_submitter : string -> W -> res (option Sub) * W;
  (* submitter.submit(job, profile, pdf_cv, pdf_cl), under the alarm: a
     time-out arrives as the exception class TimeoutError *)
  submit : Sub -> a_job -> a_profile -> string -> string -> W -> res (option string) * W;
  (* src.core.utils.append_log_row(job, profile, status, pdf_cv, pdf_cl, ats) *)
  append_log_row :
    a_job -> a_profile -> option string -> string -> string -> string -> W -> res unit * W;
  (* utils.hash_job(job), the append to self.session and self.save_session():
     none of the three is defined in this file *)
  mark_done : a_job -> W -> res unit * W;
  (* time.sleep(seconds) *)
  sleep : nat -> W -> W
}.
Arguments customize {W Sub}.
Arguments detect {W Sub}.
Arguments get_submitter {W Sub}.
Arguments submit {W Sub}.
Arguments append_log_row {W Sub}.
Arguments mark_done {W Sub}.
Arguments sleep {W Sub}.

(** The statistics dictionary of [apply_to_jobs]. *)
Record stats := {
  applied : nat;
  failed : nat;
  manual : nat;
  total : nat;
  retried : nat;
  skipped : nat
}.

Definition new_stats (n : nat) : stats :=
  {| applied := 0; failed := 0; manual := 0; total := n; retried := 0; skipped := 0 |}.

Definition incr_applied (s : stats) : stats :=
  {| applied := S (applied s); failed := failed s; manual := manual s;
     total := total s; retried := retried s; skipped := skipped s |}.

Definition incr_failed (s : stats) : stats :=
  {| applied := applied s; failed := S (failed s); manual := manual s;
     total := total s; retried := retried s; skipped := skipped s |}.

Definition incr_manual (s : stats) : stats :=
  {| applied := applied s; failed := failed s; manual := S (manual s);
     total := total s; retried := retried s; skipped := skipped s |}.

Definition incr_retried (s : stats) : stats :=
  {| applied := applied s; failed := failed s; manual := manual s;
     total := total s; retried := S (retried s); skipped := skipped s |}.

Definition incr_skipped (s : stats) : stats :=
  {| applied := applied s; failed := failed s; manual := manual s;
     total := total s; retried := retried s; skipped := S (skipped s) |}.

(** The sum the specification compares [total] with. *)
Definition accounted (s : stats) : nat :=
  applied s + manual s + failed s + skipped s.

(** *** Reading the CSV file *)

(** What [csv.DictReader] makes of the file: the header, and one dictionary
    per data row keyed by the header's names. A row shorter than the header
    holds [None] for the fields it lacks. *)
Record csv_file := {
  fieldnames : option (list string);
  csv_rows : list (gmap string (option string))
}.

(** What [read_csv_jobs] prints. *)
Inductive csv_report :=
| SkippingRow (row_num : nat)     (* yellow: Skipping row n: empty URL *)
| Loaded (n : nat)                (* green: Loaded n jobs from CSV *)
| MissingUrlColumn                (* red: CSV must contain at least 'url' column *)
| FileNotFound                    (* red: CSV file not found *)
| ErrorReading (e : exn).         (* red: Error reading CSV file *)

(** [row.get(key, default).strip()]. *)
Definition row_get_strip (row : gmap string (option string)) (key default_value : string)
  : res string :=
  match row !! key with
  | None => Ok (strip default_value)
  | Some (Some v) => Ok (strip v)
  | Some None => Raise (attribute_error "strip")
  end.

(** [row[key].strip()]. *)
Definition row_index_strip (row : gmap string (option string)) (key : string) : res string :=
  match row !! key with
  | None => Raise (key_error key)
  | Some (Some v) => Ok (strip v)
  | Some None => Raise (attribute_error "strip")
  end.

(** The dictionary built for one row. *)
Definition job_of_row (row : gmap string (option string)) : res a_job :=
  bind (row_index_strip row "url") (fun url =>
  bind (row_get_strip row "title" "Unknown Position") (fun title =>
  bind (row_get_strip row "company" "Unknown Company") (fun company =>
  bind (row_get_strip row "location" "Unknown Location") (fun location =>
  bind (row_get_strip row "summary" "") (fun summary =>
    Ok (<["site" := "CSV Import"]> (<["summary" := summary]> (<["location" := location]>
         (<["company" := company]> (<["title" := title]> (<["url" := url]> ∅))))))))))).

(** The loop over [enumerate(reader, start=2)]. What was printed stays
    printed when a later row raises. *)
Fixpoint rows_loop (rows : list (gmap string (option string))) (row_num : nat)
  (jobs : list a_job) (out : list csv_report) : res (list a_job) * list csv_report :=
  match rows with
  | [] => (Ok jobs, out)
  | row :: rest =>
      match row_get_strip row "url" "" with
      | Raise e => (Raise e, out)
      | Ok url =>
          if negb (truthy url)
          then rows_loop rest (S row_num) jobs (out ++ [SkippingRow row_num])%list
          else
            match job_of_row row with
            | Raise e => (Raise e, out)
            | Ok job => rows_loop rest (S row_num) (jobs ++ [job])%list out
            end
      end
  end.

(** [read_csv_jobs], from the opened and parsed file (or the exception that
    opening it raised): the jobs, and what was printed. *)
Definition read_csv_jobs (file : res csv_file) : list a_job * list csv_report :=
  match file with
  | Raise e =>
      if String.eqb (exn_class e) "FileNotFoundError" then ([], [FileNotFound])
      else ([], [ErrorReading e])
  | Ok f =>
      match fieldnames f with
      | Some (name :: names) =>
          if bool_decide ("url" ∈ name :: names) then
            match rows_loop (csv_rows f) 2 [] [] with
            | (Ok jobs, out) => (jobs, (out ++ [Loaded (length jobs)])%list)
            | (Raise e, out) => ([], (out ++ [ErrorReading e])%list)
            end
          else ([], [MissingUrlColumn])
      | _ => ([], [MissingUrlColumn])
      end
  end.

(** [filter_applied_jobs]: every job is kept (session tracking is a TODO). *)
Definition filter_applied_jobs (jobs : list a_job) : list a_job := jobs.

(** The job list [apply_from_csv] hands to [apply_to_jobs]. *)
Definition csv_jobs (file : res csv_file) : list a_job :=
  filter_applied_jobs (fst (read_csv_jobs file)).

(** *** The batch runner *)

Section Applicator.

Context {W Sub : Type}.
Variable svc : services W Sub.
(** [self.profile]: [None] until a profile is loaded. *)
Variable profile : a_profile.

(** [not self.profile]: [None] and the empty dictionary are both false. *)
Definition profile_loaded : option (gmap string string) :=
  match profile with
  | Some p => if bool_decide (p = ∅) then None else Some p
  | None => None
  end.

(** [_generate_documents_with_fallback]. *)
Definition _generate_documents_with_fallback (job : a_job) (w : W)
  : (string * string) * W :=
  match profile_loaded with
  | None => (("", ""), w)
  | Some p =>
      match customize svc job p w with
      | (Ok (resume_path, cover_letter_path), w1) =>
          if negb (truthy resume_path) || negb (truthy cover_letter_path) then
            match customize svc job p w1 with
            | (Ok paths, w2) => (paths, w2)
            | (Raise _, w2) => (("", ""), w2)
            end
          else ((resume_path, cover_letter_path), w1)
      | (Raise _, w1) => (("", ""), w1)
      end
  end.

(** [_detect_ats_with_fallback]. *)
Definition _detect_ats_with_fallback (url ats_choice : string) (w : W) : string * W :=
  if negb (String.eqb ats_choice "auto") then (ats_choice, w)
  else
    match detect svc url w with
    | (Raise _, w1) => ("manual", w1)
    | (Ok detected_ats, w1) =>
        let by_url :=
          let url_lower := lower url in
          if contains "workday" url_lower then "workday"
          else if contains "icims" url_lower then "icims"
          else if contains "greenhouse" url_lower then "greenhouse"
          else if contains "bamboohr" url_lower then "bamboohr"
          else if contains "lever" url_lower then "lever"
          else "manual" in
        match detected_ats with
        | Some name =>
            if truthy name && negb (String.eqb name "unknown") then (name, w1)
            else (by_url, w1)
        | None => (by_url, w1)
        end
    end.

(** [_get_submitter_with_fallback]. *)
Definition _get_submitter_with_fallback (ats_name : string) (w : W) : option Sub * W :=
  match get_submitter svc ats_name w with
  | (Ok submitter, w1) => (submitter, w1)
  | (Raise _, w1) =>
      match get_submitter svc "manual" w1 with
      | (Ok submitter, w2) => (submitter, w2)
      | (Raise _, w2) => (None, w2)
      end
  end.

(** [_submit_application_with_timeout]. *)
Definition _submit_application_with_timeout (submitter : Sub) (job : a_job)
  (pdf_cv pdf_cl : string) (w : W) : option string * W :=
  match submit svc submitter job profile pdf_cv pdf_cl w with
  | (Ok status, w1) => (status, w1)
  | (Raise e, w1) =>
      if String.eqb (exn_class e) "TimeoutError" then (Some "Timeout", w1)
      else (Some ("Failed: " +:+ exn_msg e), w1)
  end.

(** [str(status)] inside an f-string. *)
Definition str_of (status : option string) : string := default "None" status.

(** [_log_application_result]: a failure to log is printed and dropped. *)
Definition _log_application_result (job : a_job) (status : option string)
  (pdf_cv pdf_cl ats : string) (retry_count : nat) (w : W) : W :=
  let enhanced_status :=
    if (0 <? retry_count)%nat
    then Some (str_of status +:+ " (attempts: " +:+ pretty (retry_count + 1) +:+ ")")
    else status in
  snd (append_log_row svc job profile enhanced_status pdf_cv pdf_cl ats w).

Definition max_retries : nat := 2.

(** How one pass through the [try] statement of the retry loop ends. *)
Inductive flow :=
| Break              (* a [break] inside the [try] block *)
| Next               (* the block ran to its end *)
| Raised (e : exn).  (* an exception reached [except Exception] *)

(** [status and ("a" in status or "b" in status)]. *)
Definition status_says (status : option string) (a b : string) : bool :=
  match status with
  | Some s => truthy s && (contains a s || contains b s)
  | None => false
  end.

(** The [try] block of the retry loop, for a job whose URL is [url]. It
    returns how it ended together with the statistics, the success flag and
    the world as they stand at that point. *)
Definition attempt (job : a_job) (url ats_choice : string) (st : stats)
  (retry_count : nat) (w : W) : flow * stats * bool * W :=
  let '(st, w) :=
    if (0 <? retry_count)%nat then (incr_retried st, sleep svc 5 w) else (st, w) in
  let '((pdf_cv, pdf_cl), w) := _generate_documents_with_fallback job w in
  if negb (truthy pdf_cv) then (Break, st, false, w)
  else
    let '(detected_ats, w) := _detect_ats_with_fallback url ats_choice w in
    let '(submitter, w) := _get_submitter_with_fallback detected_ats w in
    match submitter with
    | None => (Break, st, false, w)
    | Some submitter =>
        let '(status, w) := _submit_application_with_timeout submitter job pdf_cv pdf_cl w in
        let '(st, application_successful) :=
          if status_says status "Applied" "Success" then (incr_applied st, true)
          else if status_says status "Manual" "Review" then (incr_manual st, true)
          else if (max_retries <=? retry_count)%nat then (incr_failed st, false)
          else (st, false) in
        let w := _log_application_result job status pdf_cv pdf_cl detected_ats retry_count w in
        if application_successful then
          match mark_done svc job w with
          | (Ok _, w) => (Break, st, true, w)
          | (Raise e, w) => (Raised e, st, true, w)
          end
        else (Next, st, false, w)
    end.

(** The [while retry_count <= max_retries and not application_successful]
    loop. [fuel] bounds the number of passes; [None] means it ran out. *)
Fixpoint retry_loop (fuel : nat) (job : a_job) (url ats_choice : string) (st : stats)
  (retry_count : nat) (application_successful : bool) (w : W)
  : option (stats * bool * W) :=
  match fuel with
  | 0 => None
  | S fuel' =>
      if (retry_count <=? max_retries)%nat && negb application_successful then
        match attempt job url ats_choice st retry_count w with
        | (Break, st, ok, w) => Some (st, ok, w)
        | (Next, st, ok, w) =>
            retry_loop fuel' job url ats_choice st (S retry_count) ok w
        | (Raised _, st, ok, w) =>
            let retry_count := S retry_count in
            if (max_retries <? retry_count)%nat then Some (incr_failed st, ok, w)
            else retry_loop fuel' job url ats_choice st (S retry_count) ok w
        end
      else Some (st, application_successful, w)
  end.

(** Passes allowed to the retry loop of one job: one per value of
    [retry_count] from 0 to [max_retries], and the pass that sees the
    condition fail. *)
Definition retry_fuel : nat := S (S max_retries).

(** The [for i, job in enumerate(jobs)] loop; [n] is [len(jobs)]. *)
Fixpoint jobs_loop (jobs : list a_job) (i n : nat) (ats_choice : string)
  (delay_seconds : nat) (st : stats) (w : W) : option (stats * W) :=
  match jobs with
  | [] => Some (st, w)
  | job :: rest =>
      let url := default "" (job !! "url") in
      if negb (truthy url)
      then jobs_loop rest (S i) n ats_choice delay_seconds (incr_skipped st) w
      else
        match retry_loop retry_fuel job url ats_choice st 0 false w with
        | None => None
        | Some (st, application_successful, w) =>
            let w :=
              if (i <? n - 1)%nat
              then sleep svc (delay_seconds * (if application_successful then 1 else 2)) w
              else w in
            jobs_loop rest (S i) n ats_choice delay_seconds st w
        end
  end.

(** [apply_to_jobs]. The browser and its context are taken as opened; the
    list of failed jobs the source keeps is never read and is left out. *)
Definition apply_to_jobs (jobs : list a_job) (ats_choice : string)
  (delay_seconds : nat) (w : W) : option (stats * W) :=
  match jobs with
  | [] => Some (new_stats 0, w)
  | _ => jobs_loop jobs 0 (length jobs) ats_choice delay_seconds (new_stats (length jobs)) w
  end.

End Applicator.

End CsvApplicator.

(** * Properties *)

Import Optimizer CsvApplicator.

(** ** Metrics *)

(** A result lands in an outcome bucket when its status is one of the three
    the updater tests for. *)
Definition bucketed (r : result) : bool :=
  let status := default "unknown" (r_status r) in
  String.eqb status "applied" || String.eqb status "failed"
  || String.eqb status "manual_review".

(** The sum of the three outcome counters. *)
Definition outcome_sum (m : ApplicationMetrics) : nat :=
  successful_applications m + failed_applications m + manual_reviews_required m.

(** A result as a timed-out attempt would be recorded: [timeout] is a status
    of the data model, and no branch of the updater tests for it. *)
Definition timeout_result : result :=
  {| r_status := Some "timeout"; r_strategy := None; r_fields_filled := None;
     r_confidence := None; r_error := None; r_application_duration := None;
     r_ats_system := None; r_ats_confidence := None |}.

Lemma update_total m r :
  total_attempts (_update_application_metrics m r) = S (total_attempts m).
Proof. reflexivity. Qed.

Lemma update_outcome_sum m r :
  outcome_sum (_update_application_metrics m r)
  = outcome_sum m + (if bucketed r then 1 else 0).
Proof.
  unfold outcome_sum, bucketed, _update_application_metrics; cbn [successful_applications
    failed_applications manual_reviews_required].
  set (status := default "unknown" (r_status r)).
  destruct (String.eqb_spec status "applied") as [Ha|Ha].
  - cbn [orb]. lia.
  - destruct (String.eqb_spec status "failed") as [Hf|Hf]; cbn [orb]; [lia|].
    destruct (String.eqb status "manual_review"); lia.
Qed.

Lemma record_all_counts rs : ∀ m,
  total_attempts (record_all m rs) = total_attempts m + length rs
  ∧ outcome_sum (record_all m rs)
    = outcome_sum m + length (List.filter bucketed rs).
Proof.
  induction rs as [|r rs IH]; intros m.
  - cbn. lia.
  - unfold record_all in *. cbn [fold_left List.filter length].
    destruct (IH (_update_application_metrics m r)) as [Ht Ho].
    rewrite Ht, Ho, update_total, update_outcome_sum.
    destruct (bucketed r); cbn [length]; lia.
Qed.

(** A result that carries a duration and nothing else. *)
Definition timed_result (status : string) (duration : float) : result :=
  {| r_status := Some status; r_strategy := None; r_fields_filled := None;
     r_confidence := None; r_error := None; r_application_duration := Some duration;
     r_ats_system := None; r_ats_confidence := None |}.

(** The scenario of the specification: three recorded durations 10, 20 and 30
    give an average of 20. *)
Lemma average_of_three_durations :
  average_application_time
    (record_all new_metrics
       [timed_result "applied" 10; timed_result "failed" 20; timed_result "applied" 30])
  = 20%float.
Proof. vm_compute. reflexivity. Qed.

(** ** Detection *)

(** The retry wrapper is transparent to a call that returns. *)
Lemma with_retry_ok {A} n (a : A) : with_retry n (λ _, Ok a) = Ok a.
Proof. destruct n; reflexivity. Qed.

Lemma detect_unfold pats pg job_url :
  detect_ats_system_with pats pg job_url
  = Ok (try_except (detect_try pats pg job_url) (λ _, ("generic", 0.1%float))).
Proof. unfold detect_ats_system_with. apply with_retry_ok. Qed.

(** The detector returns a pair, whatever the page and the URL. *)
Lemma detect_returns pg job_url :
  ∃ ats_name confidence, detect_ats_system pg job_url = Ok (ats_name, confidence).
Proof.
  unfold detect_ats_system. rewrite detect_unfold.
  destruct (try_except _ _) as [ats_name confidence]. eauto.
Qed.

(** *** The URL pass, in the words of the specification *)

(** One of the vendor's URL substrings occurs in the lower-cased URL. *)
Definition url_hit (url_l : string) (entry : string * ATSPattern) : bool :=
  existsb (λ url_pattern, contains url_pattern url_l) (url_patterns entry.2).

(** The first vendor of the catalog, in declaration order, with such a
    substring. *)
Definition url_match (pats : list (string * ATSPattern)) (url_l : string) : option string :=
  fst <$> List.find (url_hit url_l) pats.

Lemma url_patterns_loop_spec u ps :
  url_patterns_loop (Some u) ps
  = Ok (existsb (λ url_pattern, contains url_pattern (lower u)) ps).
Proof.
  induction ps as [|p ps IH]; [reflexivity|].
  cbn [url_patterns_loop url_lower bind existsb].
  destruct (contains p (lower u)); [reflexivity|]. rewrite IH. reflexivity.
Qed.

Lemma url_loop_spec u pats :
  url_loop (Some u) pats = Ok (url_match pats (lower u)).
Proof.
  unfold url_match.
  induction pats as [|[name p] pats IH]; [reflexivity|].
  cbn [url_loop List.find]. rewrite url_patterns_loop_spec. cbn [bind].
  unfold url_hit at 1. cbn [snd].
  destruct (existsb _ (url_patterns p)); [reflexivity|]. exact IH.
Qed.

(** A vendor is the match when one of its substrings occurs and no vendor
    declared before it has one that does. *)
Lemma url_match_first before name p after url_l :
  url_hit url_l (name, p) = true →
  forallb (λ entry, negb (url_hit url_l entry)) before = true →
  url_match (before ++ (name, p) :: after) url_l = Some name.
Proof.
  intros Hhit. unfold url_match.
  induction before as [|e before IH]; cbn [forallb app List.find]; intros Hb.
  - rewrite Hhit. reflexivity.
  - apply andb_true_iff in Hb as [He Hb]. apply negb_true_iff in He.
    rewrite He. apply IH, Hb.
Qed.

(** Without a URL the first substring test already raises. *)
Lemma url_loop_none : ∃ e, url_loop None _load_ats_patterns = Raise e.
Proof. eexists. reflexivity. Qed.

(** *** The DOM pass, in the words of the specification *)

(** The probe for [selector] matches at least one element. *)
Definition probe_hit (pg : page) (selector : string) : bool :=
  match pg_query_selector_all pg selector with
  | Ok (_ :: _) => true
  | _ => false
  end.

(** The indicator occurs in the page content, case-insensitively. *)
Definition text_hit (page_content indicator : string) : bool :=
  contains (lower indicator) (lower page_content).

Definition hits {A} (f : A → bool) (l : list A) : nat := length (List.filter f l).

(** [w] added [n] times to [c], one addition after the other. *)
Fixpoint add_times (n : nat) (w c : float) : float :=
  match n with
  | 0 => c
  | S k => add_times k w (c + w)%float
  end.

(** The score of [d] matching DOM selectors and [t] matching text indicators
    and form probes: 0.3 for each of the former, then 0.2 for each of the
    latter. *)
Definition weighted (d t : nat) : float := add_times t 0.2 (add_times d 0.3 0).

(** The score of a vendor on a page. *)
Definition weighted_score (pg : page) (page_content : string) (p : ATSPattern) : float :=
  weighted (hits (probe_hit pg) (dom_selectors p))
    (hits (text_hit page_content) (text_indicators p) + hits (probe_hit pg) (form_patterns p)).

(** The first vendor, in declaration order, whose score reaches 0.6, with
    that score; the generic vendor at 0.3 when there is none. *)
Definition first_crossing (pg : page) (page_content : string)
  (pats : list (string * ATSPattern)) : string * float :=
  match List.find (λ entry, (0.6 <=? weighted_score pg page_content entry.2)%float) pats with
  | Some (ats_name, p) => (ats_name, weighted_score pg page_content p)
  | None => ("generic", 0.3%float)
  end.

Lemma fold_probe_step pg w sels : ∀ c,
  fold_left (probe_step pg w) sels c = add_times (hits (probe_hit pg) sels) w c.
Proof.
  unfold hits.
  induction sels as [|s sels IH]; intros c; [reflexivity|].
  cbn [fold_left List.filter]. rewrite IH. unfold probe_step, probe_hit.
  destruct (pg_query_selector_all pg s) as [[|h hs]|e]; reflexivity.
Qed.

Lemma fold_text_step content inds : ∀ c,
  fold_left (text_step content) inds c = add_times (hits (text_hit content) inds) 0.2 c.
Proof.
  unfold hits.
  induction inds as [|i inds IH]; intros c; [reflexivity|].
  cbn [fold_left List.filter]. rewrite IH. unfold text_step, text_hit.
  destruct (contains (lower i) (lower content)); reflexivity.
Qed.

Lemma add_times_plus a b w : ∀ c,
  add_times b w (add_times a w c) = add_times (a + b) w c.
Proof. induction a as [|a IH]; intros c; [reflexivity|]. cbn. apply IH. Qed.

Lemma vendor_confidence_spec pg content p :
  vendor_confidence pg content p = weighted_score pg content p.
Proof.
  unfold vendor_confidence, weighted_score, weighted.
  rewrite !fold_probe_step, fold_text_step. apply add_times_plus.
Qed.

Lemma dom_loop_spec pg content pats :
  dom_loop pg content pats = first_crossing pg content pats.
Proof.
  unfold first_crossing.
  induction pats as [|[name p] pats IH]; [reflexivity|].
  cbn [dom_loop List.find snd]. rewrite vendor_confidence_spec.
  destruct (0.6 <=? weighted_score pg content p)%float; [reflexivity|]. exact IH.
Qed.

Lemma hits_le {A} (f : A → bool) l : hits f l ≤ length l.
Proof.
  unfold hits. induction l as [|x l IH]; cbn; [lia|].
  destruct (f x); cbn; lia.
Qed.

(** The scores the catalog can produce: no vendor has more than three DOM
    selectors, nor more than three text indicators and form probes together.
    On that grid the score lies between 0 and 1.5, and the binary64 test
    against 0.6 agrees with the test in exact tenths. *)
Definition grid_ok (d t : nat) : bool :=
  (0 <=? weighted d t)%float && (weighted d t <=? 1.5)%float
  && Bool.eqb (0.6 <=? weighted d t)%float (6 <=? 3 * d + 2 * t)%nat.

Lemma grid_checked : forallb (λ d, forallb (grid_ok d) (seq 0 4)) (seq 0 4) = true.
Proof. vm_compute. reflexivity. Qed.

Lemma grid_ok_small d t : d ≤ 3 → t ≤ 3 → grid_ok d t = true.
Proof.
  intros Hd Ht. pose proof grid_checked as H.
  rewrite forallb_forall in H. specialize (H d).
  rewrite forallb_forall in H. apply H; apply in_seq; lia.
Qed.

Definition small (entry : string * ATSPattern) : bool :=
  (length (dom_selectors entry.2) <=? 3)%nat
  && (length (text_indicators entry.2) + length (form_patterns entry.2) <=? 3)%nat.

Lemma catalog_small : forallb small _load_ats_patterns = true.
Proof. reflexivity. Qed.

Lemma small_score_ok pg content entry :
  small entry = true →
  grid_ok (hits (probe_hit pg) (dom_selectors entry.2))
    (hits (text_hit content) (text_indicators entry.2)
     + hits (probe_hit pg) (form_patterns entry.2)) = true.
Proof.
  unfold small. intros H. apply andb_true_iff in H as [Hd Ht].
  apply Nat.leb_le in Hd, Ht.
  pose proof (hits_le (probe_hit pg) (dom_selectors entry.2)).
  pose proof (hits_le (text_hit content) (text_indicators entry.2)).
  pose proof (hits_le (probe_hit pg) (form_patterns entry.2)).
  apply grid_ok_small; lia.
Qed.

Lemma first_crossing_bounds pg content pats :
  forallb small pats = true →
  (0 <=? (first_crossing pg content pats).2)%float = true
  ∧ ((first_crossing pg content pats).2 <=? 1.5)%float = true.
Proof.
  unfold first_crossing. intros Hs.
  destruct (List.find _ pats) as [[name p]|] eqn:Hf.
  - apply find_some in Hf as [Hin _].
    rewrite forallb_forall in Hs. specialize (Hs _ Hin).
    pose proof (small_score_ok pg content _ Hs) as Hg.
    unfold grid_ok in Hg. cbn [snd] in *.
    apply andb_true_iff in Hg as [Hg _]. apply andb_true_iff in Hg as [H0 H1].
    split; assumption.
  - split; reflexivity.
Qed.

Lemma find_none_of_Forall {A} (f : A → bool) l :
  Forall (λ x, f x = false) l → List.find f l = None.
Proof.
  induction 1 as [|x l Hx _ IH]; [reflexivity|]. cbn. rewrite Hx. exact IH.
Qed.

(** *** Example pages *)

(** A [query_selector_all] that finds one element for the listed selectors
    and none for the others. *)
Definition matching (sels : list string) (selector : string) : res (list nat) :=
  if existsb (String.eqb selector) sels then Ok [0] else Ok [].

(** A page that is gone: every call on it raises. *)
Definition closed_page : page :=
  {| pg_content := Raise (playwright_error "Target page has been closed");
     pg_query_selector_all := λ _, Raise (playwright_error "Target page has been closed");
     pg_query_selector := λ _, Raise (playwright_error "Target page has been closed");
     pg_wait_for_timeout := false;
     pg_elements := ∅; pg_clicked := [] |}.

(** A Workday posting served from the employer's own domain: the three DOM
    selectors and the form probe of the vendor match, and the page says so. *)
Definition workday_page : page :=
  {| pg_content := Ok "<html><body class='workday'>Careers at Acme. Powered by Workday</body></html>";
     pg_query_selector_all :=
       matching ["[data-automation-id]"; ".css-1hwfws3"; ".workday"; "input[data-automation-id]"];
     pg_query_selector := λ _, Ok None;
     pg_wait_for_timeout := true;
     pg_elements := ∅; pg_clicked := [] |}.

(** A Greenhouse form embedded in a page that carries two Workday markers. *)
Definition mixed_page : page :=
  {| pg_content := Ok "<html><body>Apply now. Powered by Greenhouse</body></html>";
     pg_query_selector_all :=
       matching ["[data-automation-id]"; ".css-1hwfws3"; ".application-form";
                 ".greenhouse-form"; "input[name*=" +:+ q "application" +:+ "]"];
     pg_query_selector := λ _, Ok None;
     pg_wait_for_timeout := true;
     pg_elements := ∅; pg_clicked := [] |}.

(** [self.ats_patterns[name]] for a vendor of the catalog. *)
Definition pattern_of (ats_name : string) : ATSPattern :=
  default {| url_patterns := []; dom_selectors := []; text_indicators := [];
             form_patterns := [] |} (assoc ats_name _load_ats_patterns).

Definition greenhouse_pattern : ATSPattern := pattern_of "greenhouse".

(** A page that is gone is no failure of the detector as a whole: each
    probe fails on its own, and the answer is the generic vendor at 0.3. *)
Lemma closed_page_is_generic :
  detect_ats_system closed_page (Some "https://careers.acme.com/jobs/123")
  = Ok ("generic", 0.3%float).
Proof. vm_compute. reflexivity. Qed.

(** *** C2 *)

(** C2, as stated, fails on the bound: on [workday_page], reached through a
    URL that names no vendor, the detector returns the vendor [workday] with a
    confidence above 1 (three DOM selectors, two text indicators, one form
    probe: 1.5 up to rounding). *)
Lemma C2_counterexample :
  ∃ confidence,
    detect_ats_system workday_page (Some "https://careers.acme.com/jobs/123")
    = Ok ("workday", confidence)
    ∧ (confidence <=? 1)%float = false ∧ (1 <? confidence)%float = true.
Proof. eexists. split; [vm_compute; reflexivity|]. split; reflexivity. Qed.

(** C2, amended: for every page, failing probes included, and every job URL,
    [None] included, [detect_ats_system] returns a pair and does not raise; the
    confidence lies between 0 and 1.5; when the [try] block raises, as it does
    for a URL that is [None], the pair is [('generic', 0.1)]; and when the URL
    names no vendor and no vendor reaches the threshold the pair is
    [('generic', 0.3)]. *)
Theorem C2_detection_never_raises (pg : page) (job_url : option string) :
  ∃ ats_name confidence,
    detect_ats_system pg job_url = Ok (ats_name, confidence)
    ∧ (0 <=? confidence)%float = true
    ∧ (confidence <=? 1.5)%float = true
    ∧ (∀ e, detect_try _load_ats_patterns pg job_url = Raise e →
         (ats_name, confidence) = ("generic", 0.1%float))
    ∧ (job_url = None → (ats_name, confidence) = ("generic", 0.1%float))
    ∧ (∀ u, job_url = Some u →
         url_match _load_ats_patterns (lower u) = None →
         Forall (λ entry,
             (0.6 <=? weighted_score pg (safe_execute (pg_content pg) "") entry.2)%float
             = false) _load_ats_patterns →
         (ats_name, confidence) = ("generic", 0.3%float)).
Proof.
  unfold detect_ats_system. rewrite detect_unfold.
  destruct job_url as [u|].
  - unfold detect_try. rewrite url_loop_spec. cbn [bind].
    destruct (url_match _load_ats_patterns (lower u)) as [name|] eqn:Hm.
    + exists name, 0.9%float. cbn [try_except].
      repeat split; try reflexivity; try discriminate.
      intros u' [= <-]. rewrite Hm. discriminate.
    + cbn [try_except]. rewrite dom_loop_spec.
      set (content := safe_execute (pg_content pg) "").
      destruct (first_crossing_bounds pg content _ catalog_small) as [H0 H1].
      exists (first_crossing pg content _load_ats_patterns).1,
             (first_crossing pg content _load_ats_patterns).2.
      rewrite <- surjective_pairing.
      repeat split; try assumption; try discriminate.
      intros u' _ _ Hall. unfold first_crossing.
      rewrite (find_none_of_Forall _ _ Hall). reflexivity.
  - exists "generic", 0.1%float.
    repeat split; try reflexivity; discriminate.
Qed.

(** *** C5 *)

(** C5, as stated, fails for a URL that carries the substrings of two vendors:
    this one, a Greenhouse posting reached from a Lever board, contains
    [lever.co], a URL substring of the vendor [lever], and the detector
    returns [greenhouse], declared earlier in the catalog. *)
Lemma C5_counterexample :
  url_hit (lower "https://boards.greenhouse.io/acme/jobs/4521?gh_src=jobs.lever.co")
    ("lever", pattern_of "lever") = true
  ∧ detect_ats_system closed_page (Some "https://boards.greenhouse.io/acme/jobs/4521?gh_src=jobs.lever.co")
    = Ok ("greenhouse", 0.9%float).
Proof. split; vm_compute; reflexivity. Qed.

(** C5, amended: when one of a vendor's URL substrings occurs in the
    lower-cased job URL and no vendor declared before it in the catalog has a
    substring that occurs as well, [detect_ats_system] returns that vendor
    with confidence exactly 0.9, whatever the page (no probe is consulted). In
    particular the URL [https://boards.greenhouse.io/acme/123] gives
    [('greenhouse', 0.9)] on every page. *)
Theorem C5_url_detection (pg : page) (u : string)
  (before : list (string * ATSPattern)) (ats_name : string) (p : ATSPattern)
  (after : list (string * ATSPattern)) :
  _load_ats_patterns = before ++ (ats_name, p) :: after →
  url_hit (lower u) (ats_name, p) = true →
  forallb (λ entry, negb (url_hit (lower u) entry)) before = true →
  detect_ats_system pg (Some u) = Ok (ats_name, 0.9%float)
  ∧ ∀ pg', detect_ats_system pg' (Some "https://boards.greenhouse.io/acme/123")
           = Ok ("greenhouse", 0.9%float).
Proof.
  intros Hcat Hhit Hbefore. split.
  - unfold detect_ats_system. rewrite detect_unfold. unfold detect_try.
    rewrite url_loop_spec, Hcat.
    rewrite (url_match_first before ats_name p after _ Hhit Hbefore).
    reflexivity.
  - intros pg'. unfold detect_ats_system. rewrite detect_unfold. unfold detect_try.
    rewrite url_loop_spec. reflexivity.
Qed.

Lemma C5_url_detection_witness :
  detect_ats_system closed_page (Some "HTTPS://Jobs.Lever.co/acme/77")
  = Ok ("lever", 0.9%float)
  ∧ ∀ pg', detect_ats_system pg' (Some "https://boards.greenhouse.io/acme/123")
           = Ok ("greenhouse", 0.9%float).
Proof.
  apply (C5_url_detection closed_page "HTTPS://Jobs.Lever.co/acme/77"
           (take 2 _load_ats_patterns) "lever" (pattern_of "lever")
           (drop 3 _load_ats_patterns)); reflexivity.
Defined.

(** *** C6 *)

(** C6: when the URL names no vendor, the confidence of each vendor is 0.3
    for every DOM selector that matches at least one element, then 0.2 for
    every text indicator found case-insensitively in the page content and
    every form probe that matches; it reaches the threshold exactly when
    three times the first count plus twice the other two is at least six; and
    the detector returns the first vendor in catalog order that reaches it,
    with that confidence, or [('generic', 0.3)]. The first vendor is not the
    best one in general: on [mixed_page] it is [workday], whose score is below
    that of [greenhouse]. *)
Theorem C6_dom_scoring (pg : page) (u : string) :
  url_match _load_ats_patterns (lower u) = None →
  let content := safe_execute (pg_content pg) "" in
  detect_ats_system pg (Some u) = Ok (first_crossing pg content _load_ats_patterns)
  ∧ Forall (λ entry,
        vendor_confidence pg content entry.2 = weighted_score pg content entry.2
        ∧ (0.6 <=? weighted_score pg content entry.2)%float
          = (6 <=? 3 * hits (probe_hit pg) (dom_selectors entry.2)
                   + 2 * (hits (text_hit content) (text_indicators entry.2)
                          + hits (probe_hit pg) (form_patterns entry.2))))
      _load_ats_patterns
  ∧ (let content' := safe_execute (pg_content mixed_page) "" in
     (first_crossing mixed_page content' _load_ats_patterns).1 = "workday"
     ∧ ((first_crossing mixed_page content' _load_ats_patterns).2
        <? weighted_score mixed_page content' greenhouse_pattern)%float = true).
Proof.
  intros Hm content. split; [|split].
  - unfold detect_ats_system. rewrite detect_unfold. unfold detect_try.
    rewrite url_loop_spec, Hm. cbn [bind try_except].
    rewrite dom_loop_spec. reflexivity.
  - apply Forall_forall. intros entry Hin.
    split; [apply vendor_confidence_spec|].
    apply list_elem_of_In in Hin.
    pose proof catalog_small as Hs. rewrite forallb_forall in Hs.
    pose proof (small_score_ok pg content _ (Hs _ Hin)) as Hg.
    unfold grid_ok in Hg. apply andb_true_iff in Hg as [_ Hg].
    apply Bool.eqb_prop in Hg. exact Hg.
  - split; vm_compute; reflexivity.
Qed.

Lemma C6_dom_scoring_witness :
  let content := safe_execute (pg_content mixed_page) "" in
  detect_ats_system mixed_page (Some "https://careers.acme.com/jobs/123")
  = Ok (first_crossing mixed_page content _load_ats_patterns)
  ∧ Forall (λ entry,
        vendor_confidence mixed_page content entry.2
        = weighted_score mixed_page content entry.2
        ∧ (0.6 <=? weighted_score mixed_page content entry.2)%float
          = (6 <=? 3 * hits (probe_hit mixed_page) (dom_selectors entry.2)
                   + 2 * (hits (text_hit content) (text_indicators entry.2)
                          + hits (probe_hit mixed_page) (form_patterns entry.2))))
      _load_ats_patterns
  ∧ (let content' := safe_execute (pg_content mixed_page) "" in
     (first_crossing mixed_page content' _load_ats_patterns).1 = "workday"
     ∧ ((first_crossing mixed_page content' _load_ats_patterns).2
        <? weighted_score mixed_page content' greenhouse_pattern)%float = true).
Proof.
  apply (C6_dom_scoring mixed_page "https://careers.acme.com/jobs/123").
  reflexivity.
Defined.

(** ** The field filler *)

(** An element counts as empty for the filler when its value reads as the
    empty string, or cannot be read at all: the failed read is replaced by
    the default of [safe_execute], the empty string. *)
Definition reads_empty (el : element) : bool :=
  negb (el_input_value el) || negb (truthy (el_value el)).

Lemma safe_input_value pg h el :
  pg_elements pg !! h = Some el →
  truthy (safe_execute (input_value pg h) "") = negb (reads_empty el).
Proof.
  intros Hh. unfold input_value, reads_empty. rewrite Hh.
  destruct (el_input_value el); cbn; [|reflexivity].
  destruct (truthy (el_value el)); reflexivity.
Qed.

(** [fill] writes one element and nothing else. *)
Lemma fill_elements pg h v pg' :
  fill pg h v = Ok pg' →
  ∃ el, pg_elements pg !! h = Some el
        ∧ pg_elements pg' = <[h := set_value v el]> (pg_elements pg).
Proof.
  unfold fill. destruct (pg_elements pg !! h) as [el|]; [|discriminate].
  destruct (el_fill el); [|discriminate]. intros [= <-]. eauto.
Qed.

(** A candidate selector offers a target when it resolves to an element
    whose value reads as empty and that accepts the fill. *)
Definition offers (pg : page) (value selector : string) : bool :=
  match pg_query_selector pg selector with
  | Ok (Some h) =>
      negb (truthy (safe_execute (input_value pg h) "")) && is_ok (fill pg h value)
  | _ => false
  end.

(** What a run of [_try_fill_field] does to the page: nothing when it
    reports failure, and then no candidate offered a target; otherwise one
    write, through the first candidate that offers a target, into an element
    that read as empty. *)
Lemma try_fill_effect selectors value : ∀ pg,
  let out := _try_fill_field pg selectors value in
  (out.1 = false →
     out.2 = pg ∧ Forall (λ s, offers pg value s = false) selectors)
  ∧ (out.1 = true →
     ∃ before selector after h el,
       selectors = before ++ selector :: after
       ∧ Forall (λ s, offers pg value s = false) before
       ∧ pg_query_selector pg selector = Ok (Some h)
       ∧ pg_elements pg !! h = Some el
       ∧ reads_empty el = true
       ∧ pg_elements out.2 = <[h := set_value value el]> (pg_elements pg)).
Proof.
  induction selectors as [|s selectors IH]; intros pg; cbn zeta.
  - cbn. split; [auto|discriminate].
  - cbn [_try_fill_field].
    assert (Hrest : offers pg value s = false →
      let out := _try_fill_field pg selectors value in
      (out.1 = false →
         out.2 = pg ∧ Forall (λ s, offers pg value s = false) (s :: selectors))
      ∧ (out.1 = true →
         ∃ before selector after h el,
           s :: selectors = before ++ selector :: after
           ∧ Forall (λ s, offers pg value s = false) before
           ∧ pg_query_selector pg selector = Ok (Some h)
           ∧ pg_elements pg !! h = Some el
           ∧ reads_empty el = true
           ∧ pg_elements out.2 = <[h := set_value value el]> (pg_elements pg))).
    { intros Hs. cbn zeta. destruct (IH pg) as [Hf Ht]. split.
      - intros Hno. destruct (Hf Hno) as [Hpg Hall]. auto.
      - intros Hok.
        destruct (Ht Hok) as (before & sel & after & h & el & -> & Hall & Hrest).
        exists (s :: before), sel, after, h, el. split; [reflexivity|].
        split; [constructor; assumption|exact Hrest]. }
    unfold offers in Hrest.
    destruct (pg_query_selector pg s) as [[h|]|e] eqn:Hq; try (apply Hrest; reflexivity).
    destruct (truthy (safe_execute (input_value pg h) "")) eqn:Hcur;
      [apply Hrest; reflexivity|].
    destruct (fill pg h value) as [pg'|e] eqn:Hfill; [|apply Hrest; reflexivity].
    cbn [fst snd]. split; [discriminate|]. intros _.
    destruct (fill_elements _ _ _ _ Hfill) as (el & Hel & Hpg').
    exists [], s, selectors, h, el. split; [reflexivity|]. split; [constructor|].
    split; [exact Hq|]. split; [exact Hel|]. split; [|exact Hpg'].
    rewrite (safe_input_value _ _ _ Hel) in Hcur.
    apply negb_false_iff in Hcur. exact Hcur.
Qed.

(** An element whose value reads as non-empty is left as it is. *)
Lemma try_fill_keeps pg selectors value h el :
  pg_elements pg !! h = Some el →
  reads_empty el = false →
  pg_elements (_try_fill_field pg selectors value).2 !! h = Some el.
Proof.
  intros Hel Hfull.
  destruct (try_fill_effect selectors value pg) as [Hf Ht].
  destruct (_try_fill_field pg selectors value).1 eqn:Hok.
  - destruct (Ht eq_refl) as (before & sel & after & h' & el' & _ & _ & _ & Hel' & Hempty & ->).
    destruct (decide (h' = h)) as [->|Hne].
    + rewrite Hel in Hel'. injection Hel' as <-. congruence.
    + rewrite lookup_insert_ne; assumption.
  - destruct (Hf eq_refl) as [-> _]. exact Hel.
Qed.

(** A form with a name field that is not an input control: its text cannot be
    read with [input_value], and [fill] replaces it. *)
Definition editable_page : page :=
  {| pg_content := Ok "<div id='first_name' contenteditable>Old Name</div>";
     pg_query_selector_all := matching ["#first_name"];
     pg_query_selector := λ selector,
       if String.eqb selector "#first_name" then Ok (Some 0) else Ok None;
     pg_wait_for_timeout := true;
     pg_elements :=
       {[ 0 := {| el_value := "Old Name"; el_input_value := false; el_fill := true;
                  el_is_visible := Ok true; el_click := true |} ]};
     pg_clicked := [] |}.

(** A partially filled form: the first name is there, the email is not. *)
Definition half_filled_page : page :=
  {| pg_content := Ok "<form><input id='first_name'><input id='email'></form>";
     pg_query_selector_all := matching ["#first_name"; "#email"];
     pg_query_selector := λ selector,
       if String.eqb selector "#first_name" then Ok (Some 0)
       else if String.eqb selector "#email" then Ok (Some 1) else Ok None;
     pg_wait_for_timeout := true;
     pg_elements :=
       {[ 0 := {| el_value := "Ada"; el_input_value := true; el_fill := true;
                  el_is_visible := Ok true; el_click := true |};
          1 := {| el_value := ""; el_input_value := true; el_fill := true;
                  el_is_visible := Ok true; el_click := true |} ]};
     pg_clicked := [] |}.

(** C7, as stated, fails when the value of the element cannot be read: the
    element of [editable_page] holds a text, [input_value] raises on it, the
    filler takes the default of [safe_execute] for its value and overwrites
    it. *)
Lemma C7_counterexample :
  el_value <$> pg_elements editable_page !! 0 = Some "Old Name"
  ∧ (_try_fill_field editable_page ["#first_name"] "Grace").1 = true
  ∧ el_value <$> pg_elements (_try_fill_field editable_page ["#first_name"] "Grace").2 !! 0
    = Some "Grace".
Proof. repeat split; vm_compute; reflexivity. Qed.

(** C7, amended: for every selector list, fill value and page, an element
    whose current value reads as non-empty is never written, neither by a run
    of the filler nor by a second run after it. A run that reports failure
    leaves the page as it was, no candidate having offered a target; a run
    that reports success has written exactly one element, reached through the
    first candidate selector that resolves to an element whose value reads as
    empty and that accepts the fill (a value that cannot be read counts as
    empty). *)
Theorem C7_filler_never_overwrites (pg : page) (selectors : list string)
  (value : string) (h : nat) (el : element) :
  pg_elements pg !! h = Some el →
  el_input_value el = true →
  truthy (el_value el) = true →
  let once := _try_fill_field pg selectors value in
  let twice := _try_fill_field once.2 selectors value in
  pg_elements once.2 !! h = Some el
  ∧ pg_elements twice.2 !! h = Some el
  ∧ (once.1 = false →
       once.2 = pg ∧ Forall (λ s, offers pg value s = false) selectors)
  ∧ (once.1 = true →
     ∃ before selector after h' el',
       selectors = before ++ selector :: after
       ∧ Forall (λ s, offers pg value s = false) before
       ∧ pg_query_selector pg selector = Ok (Some h')
       ∧ pg_elements pg !! h' = Some el'
       ∧ reads_empty el' = true
       ∧ pg_elements once.2 = <[h' := set_value value el']> (pg_elements pg)).
Proof.
  intros Hel Hread Hfull once twice.
  assert (Hne : reads_empty el = false).
  { unfold reads_empty. rewrite Hread, Hfull. reflexivity. }
  assert (H1 : pg_elements once.2 !! h = Some el)
    by (apply try_fill_keeps; assumption).
  split; [exact H1|]. split; [apply try_fill_keeps; assumption|].
  apply try_fill_effect.
Qed.

Lemma C7_filler_never_overwrites_witness :
  let once := _try_fill_field half_filled_page ["#first_name"; "#email"] "Grace" in
  let twice := _try_fill_field once.2 ["#first_name"; "#email"] "Grace" in
  el_value <$> pg_elements once.2 !! 0 = Some "Ada"
  ∧ el_value <$> pg_elements twice.2 !! 0 = Some "Ada"
  ∧ el_value <$> pg_elements once.2 !! 1 = Some "Grace".
Proof.
  pose proof (C7_filler_never_overwrites half_filled_page ["#first_name"; "#email"]
                "Grace" 0
                {| el_value := "Ada"; el_input_value := true; el_fill := true;
                   el_is_visible := Ok true; el_click := true |}
                eq_refl eq_refl eq_refl) as (H1 & H2 & _).
  cbv zeta. rewrite H1, H2. repeat split.
Defined.

(** *** The profile data and the default email *)

(** The field a printed line is about. *)
Definition report_field (r : fill_report) : string :=
  match r with
  | Filled field_name _ => field_name
  | CouldNotFill field_name => field_name
  end.

(** The dictionary [profile_data] that [_fill_form_fields] builds from a
    profile that is a dictionary. *)
Definition profile_data_of (p : gmap string string) : gmap string string :=
  <["phone" := default "" (p !! "phone")]>
    (<["email" := default "Nirajan.tech@gmail.com" (p !! "email")]>
      (<["last_name" := default "" (p !! "last_name")]>
        (<["first_name" := default "" (p !! "first_name")]> ∅))).

(** The loop tries a field when the profile data holds a non-empty value for
    it. *)
Definition tried (profile_data : gmap string string) (field_name : string) : bool :=
  truthy (default "" (profile_data !! field_name)).

Lemma fill_form_fields_dict pg p mappings :
  _fill_form_fields pg (Some p) mappings
  = Ok (fill_loop (profile_data_of p) mappings pg ∅ []).
Proof. reflexivity. Qed.

Lemma profile_data_email p :
  profile_data_of p !! "email" = Some (default "Nirajan.tech@gmail.com" (p !! "email")).
Proof.
  unfold profile_data_of.
  rewrite lookup_insert_ne by discriminate. apply lookup_insert_eq.
Qed.

(** The lines printed by the loop, in order: one for every mapped field that
    is tried. *)
Lemma fill_loop_reports profile_data mappings : ∀ pg filled out,
  map report_field (fill_loop profile_data mappings pg filled out).2
  = map report_field out ++ List.filter (tried profile_data) (map fst mappings).
Proof.
  induction mappings as [|[field_name selectors] mappings IH]; intros pg filled out.
  - cbn. rewrite app_nil_r. reflexivity.
  - cbn [fill_loop map fst List.filter].
    assert (Ht : tried profile_data field_name
                 = match profile_data !! field_name with
                   | Some value => truthy value
                   | None => false
                   end).
    { unfold tried. destruct (profile_data !! field_name); reflexivity. }
    rewrite Ht. clear Ht.
    destruct (profile_data !! field_name) as [value|]; [|apply IH].
    destruct (truthy value); [|apply IH].
    destruct (_try_fill_field pg selectors value) as [[] pg'];
      rewrite IH, map_app; cbn [map report_field];
      rewrite <- app_assoc; reflexivity.
Qed.

(** A value recorded for a field is the one the profile data holds, and it is
    not empty. *)
Lemma fill_loop_filled profile_data mappings field v : ∀ pg filled out,
  (fill_loop profile_data mappings pg filled out).1.1 !! field = Some v →
  filled !! field = Some v
  ∨ (profile_data !! field = Some v ∧ truthy v = true).
Proof.
  induction mappings as [|[field_name selectors] mappings IH]; intros pg filled out.
  - cbn. auto.
  - cbn [fill_loop].
    destruct (profile_data !! field_name) as [value|] eqn:Hpd; [|apply IH].
    destruct (truthy value) eqn:Hv; [|apply IH].
    destruct (_try_fill_field pg selectors value) as [[] pg']; [|apply IH].
    intros H. apply IH in H as [H|H]; [|auto].
    destruct (decide (field_name = field)) as [->|Hne].
    + rewrite lookup_insert_eq in H. injection H as <-. auto.
    + rewrite lookup_insert_ne in H by assumption. auto.
Qed.

(** A profile without the key behaves as one that holds the default address. *)
Lemma profile_data_default_email p :
  p !! "email" = None →
  profile_data_of (<["email" := "Nirajan.tech@gmail.com"]> p) = profile_data_of p.
Proof.
  intros Hnone. unfold profile_data_of.
  rewrite lookup_insert_eq, Hnone.
  rewrite !lookup_insert_ne by discriminate. reflexivity.
Qed.

(** A form with an empty email input and nothing else. *)
Definition email_form : page :=
  {| pg_content := Ok "<form><input type='email' id='email'></form>";
     pg_query_selector_all := matching ["#email"];
     pg_query_selector := λ selector,
       if String.eqb selector "#email" then Ok (Some 0) else Ok None;
     pg_wait_for_timeout := true;
     pg_elements :=
       {[ 0 := {| el_value := ""; el_input_value := true; el_fill := true;
                  el_is_visible := Ok true; el_click := true |} ]};
     pg_clicked := [] |}.

Definition generic_mapping : field_mapping :=
  default [] (assoc "generic" _load_form_mappings).



(** ** Strategies and the dispatcher *)

(** The mapping a strategy asks for is always there. *)
Lemma mappings_index_ok name :
  In name ["workday"; "greenhouse"; "generic"] → ∃ m, mappings_index name = Ok m.
Proof.
  intros [<-|[<-|[<-|[]]]]; eexists; reflexivity.
Qed.

Lemma mappings_get_or_generic_ok name : ∃ m, mappings_get_or_generic name = Ok m.
Proof.
  unfold mappings_get_or_generic.
  destruct (mappings_index_ok "generic") as [g ->]; [cbn; tauto|].
  cbn [bind]. eexists. reflexivity.
Qed.

(** The form filler raises exactly when the profile is not a dictionary, and
    then with the attribute error of the first read. *)
Lemma fill_form_fields_none pg m :
  _fill_form_fields pg None m = Raise (attribute_error "get").
Proof. reflexivity. Qed.

(** The result of a strategy whose mapping is [m]: applied, with the fields
    the filler recorded, when the filler returns; failed, with the text of the
    exception, when it raises. *)
Lemma run_strategy_result sname m after profile pg c :
  match _fill_form_fields pg profile m with
  | Ok (filled, _, _) =>
      (run_strategy sname (Ok m) after profile pg c).1 = applied_result sname filled c
  | Raise e =>
      (run_strategy sname (Ok m) after profile pg c).1 = failed_result sname e c
  end.
Proof.
  unfold run_strategy. cbn [bind].
  destruct (_fill_form_fields pg profile m) as [[[filled pg'] out]|e]; reflexivity.
Qed.

(** The shape shared by the five entries of the dispatch table. *)
Definition is_vendor_strategy
  (f : a_job → a_profile → page → float → result * page) : Prop :=
  ∃ sname m after, ∀ job, f job = run_strategy sname (Ok m) after.

Lemma vendor_strategies_shape :
  Forall is_vendor_strategy
    [ _apply_workday_strategy; _apply_greenhouse_strategy; _apply_lever_strategy;
      _apply_bamboohr_strategy; _apply_generic_strategy ].
Proof.
  repeat constructor; unfold is_vendor_strategy.
  - destruct (mappings_index_ok "workday") as [m Hm]; [cbn; tauto|].
    exists "workday", m, _handle_workday_specifics. intros job.
    unfold _apply_workday_strategy. rewrite Hm. reflexivity.
  - destruct (mappings_index_ok "greenhouse") as [m Hm]; [cbn; tauto|].
    exists "greenhouse", m, (λ pg _, pg). intros job.
    unfold _apply_greenhouse_strategy. rewrite Hm. reflexivity.
  - destruct (mappings_get_or_generic_ok "lever") as [m Hm].
    exists "lever", m, (λ pg _, pg). intros job.
    unfold _apply_lever_strategy. rewrite Hm. reflexivity.
  - destruct (mappings_get_or_generic_ok "bamboohr") as [m Hm].
    exists "bamboohr", m, (λ pg _, pg). intros job.
    unfold _apply_bamboohr_strategy. rewrite Hm. reflexivity.
  - destruct (mappings_index_ok "generic") as [m Hm]; [cbn; tauto|].
    exists "generic", m, (λ pg _, pg). intros job.
    unfold _apply_generic_strategy. rewrite Hm. reflexivity.
Qed.

(** Whatever vendor name the detector returns, the table look-up with its
    generic default yields one of the five strategies. *)
Lemma selected_strategy ats_system :
  ∃ f, is_vendor_strategy f
       ∧ default (total_strategy _apply_generic_strategy) (assoc ats_system strategies)
         = total_strategy f.
Proof.
  pose proof vendor_strategies_shape as H.
  inversion H as [|? ? Hw H1]; subst. inversion H1 as [|? ? Hg H2]; subst.
  inversion H2 as [|? ? Hl H3]; subst. inversion H3 as [|? ? Hb H4]; subst.
  inversion H4 as [|? ? Hgen _]; subst.
  unfold strategies. cbn [assoc].
  destruct (String.eqb ats_system "workday"); [eauto|].
  destruct (String.eqb ats_system "greenhouse"); [eauto|].
  destruct (String.eqb ats_system "lever"); [eauto|].
  destruct (String.eqb ats_system "bamboohr"); [eauto|].
  destruct (String.eqb ats_system "generic"); eauto.
Qed.

(** The status and the error text of a strategy's result. *)
Lemma vendor_strategy_status f job profile pg c :
  is_vendor_strategy f →
  match profile with
  | Some _ =>
      r_status (f job profile pg c).1 = Some "applied"
      ∧ r_error (f job profile pg c).1 = None
  | None =>
      r_status (f job profile pg c).1 = Some "failed"
      ∧ r_error (f job profile pg c).1 = Some (exn_msg (attribute_error "get"))
  end.
Proof.
  intros (sname & m & after & Hf). rewrite Hf.
  pose proof (run_strategy_result sname m after profile pg c) as H.
  destruct profile as [p|].
  - rewrite fill_form_fields_dict in H.
    destruct (fill_loop _ _ _ _ _) as [[filled pg'] out]. rewrite H. auto.
  - rewrite fill_form_fields_none in H. rewrite H. auto.
Qed.

(** The dispatcher on the table of the source: the selected strategy returns,
    its result is stamped and recorded. *)
Lemma optimize_unfold metrics job profile pg start now :
  ∃ ats_system confidence f,
    detect_ats_system pg (Some (default "" (job !! "url"))) = Ok (ats_system, confidence)
    ∧ is_vendor_strategy f
    ∧ let r := with_timing (f job profile pg confidence).1 (now - start)%float
                 ats_system confidence in
      optimize_application_flow metrics job profile pg (start, now)
      = Ok (r, (f job profile pg confidence).2, _update_application_metrics metrics r).
Proof.
  destruct (detect_returns pg (Some (default "" (job !! "url"))))
    as (ats_system & confidence & Hd).
  destruct (selected_strategy ats_system) as (f & Hf & Hsel).
  exists ats_system, confidence, f. split; [exact Hd|]. split; [exact Hf|].
  cbn zeta. unfold optimize_application_flow, optimize_application_flow_with.
  cbn [with_retry]. unfold optimize_body. rewrite Hd. cbn [bind].
  change (assoc "generic" strategies) with (Some (total_strategy _apply_generic_strategy)).
  cbn [bind]. rewrite Hsel. unfold total_strategy.
  destruct (f job profile pg confidence) as [r pg']. reflexivity.
Qed.

(** The dispatcher's own [except] branch, on a table one of whose entries
    lets an exception out: the failed result is returned and the metrics are
    left as they were. No entry of the table of the source does so. *)
Lemma dispatcher_own_except (table : list (string * strategy_func))
  (generic : strategy_func) metrics job profile pg start now
  ats_system confidence e pg' :
  detect_ats_system pg (Some (default "" (job !! "url"))) = Ok (ats_system, confidence) →
  assoc "generic" table = Some generic →
  default generic (assoc ats_system table) job profile pg confidence = (Raise e, pg') →
  optimize_application_flow_with table metrics job profile pg (start, now)
  = Ok (dispatcher_failed e ats_system confidence (now - start)%float, pg', metrics).
Proof.
  intros Hd Hg Hs. unfold optimize_application_flow_with. cbn [with_retry].
  unfold optimize_body. rewrite Hd. cbn [bind]. rewrite Hg. cbn [bind].
  rewrite Hs. reflexivity.
Qed.

(** A status a strategy can produce. *)
Definition applied_or_failed (r : result) : Prop :=
  r_status r = Some "applied" ∨ r_status r = Some "failed".

Lemma applied_or_failed_bucketed r : applied_or_failed r → bucketed r = true.
Proof. unfold bucketed. intros [-> | ->]; reflexivity. Qed.

(** A session returns the results of its calls, each applied or failed, and
    its metrics are the initial ones with those results recorded in turn. *)
Lemma run_session_spec calls : ∀ m0,
  ∃ rs, run_session m0 calls = Ok (rs, record_all m0 rs)
        ∧ Forall applied_or_failed rs.
Proof.
  induction calls as [|[job profile pg [start now]] calls IH]; intros m0.
  - exists []. split; [reflexivity|constructor].
  - destruct (optimize_unfold m0 job profile pg start now)
      as (ats_system & confidence & f & _ & Hf & Hrun).
    cbn zeta in Hrun. cbn [run_session i_job i_profile i_page i_clock].
    rewrite Hrun. cbn [bind].
    pose proof (vendor_strategy_status f job profile pg confidence Hf) as Hst.
    set (r := with_timing _ _ _ _) in *.
    assert (Hr : applied_or_failed r).
    { subst r. unfold applied_or_failed. cbn [with_timing r_status].
      destruct profile; destruct Hst as [-> _]; auto. }
    destruct (IH (_update_application_metrics m0 r)) as (rs & Hrs & Hall).
    rewrite Hrs. cbn [bind]. exists (r :: rs). split; [reflexivity|].
    constructor; assumption.
Qed.

Lemma record_all_manual rs : ∀ m0,
  Forall applied_or_failed rs →
  manual_reviews_required (record_all m0 rs) = manual_reviews_required m0.
Proof.
  induction rs as [|r rs IH]; intros m0 Hall; [reflexivity|].
  inversion Hall as [|? ? Hr Hrs]; subst.
  unfold record_all in *. cbn [fold_left]. rewrite (IH _ Hrs).
  unfold _update_application_metrics. cbn [manual_reviews_required].
  destruct Hr as [-> | ->]; reflexivity.
Qed.

Lemma unbucketed_none rs :
  Forall applied_or_failed rs → List.filter (λ r, negb (bucketed r)) rs = [].
Proof.
  induction 1 as [|r rs Hr _ IH]; [reflexivity|].
  cbn [List.filter]. rewrite (applied_or_failed_bucketed r Hr). exact IH.
Qed.



(** *** C1 *)

(** C1, as stated, fails: recording one result whose status is [timeout]
    raises [total_attempts] to 1 and leaves the three buckets at 0. *)
Lemma C1_counterexample :
  total_attempts (record_all new_metrics [timeout_result]) = 1
  ∧ outcome_sum (record_all new_metrics [timeout_result]) = 0.
Proof. split; reflexivity. Qed.

(** C1, amended: every call of the updater adds one to [total_attempts] and
    one to the outcome buckets exactly when the status is [applied], [failed]
    or [manual_review], and nothing to the buckets otherwise. So after any
    sequence of results recorded on a fresh optimizer, [total_attempts] is the
    sum of the three buckets plus the number of results with another status
    (or none). The results the dispatcher records are all applied or failed,
    so after any sequence of calls of [optimize_application_flow] the two
    sides are equal. *)
Theorem C1_metrics_accounting (m : ApplicationMetrics) (r : result) (rs : list result)
  (calls : list invocation) :
  total_attempts (_update_application_metrics m r) = S (total_attempts m)
  ∧ outcome_sum (_update_application_metrics m r)
    = outcome_sum m + (if bucketed r then 1 else 0)
  ∧ total_attempts (record_all new_metrics rs)
    = outcome_sum (record_all new_metrics rs)
      + length (List.filter (λ r, negb (bucketed r)) rs)
  ∧ ∃ rs' m',
      run_session new_metrics calls = Ok (rs', m')
      ∧ total_attempts m' = outcome_sum m'.
Proof.
  split; [apply update_total|]. split; [apply update_outcome_sum|].
  assert (Hfresh : ∀ l, total_attempts (record_all new_metrics l)
            = outcome_sum (record_all new_metrics l)
              + length (List.filter (λ r, negb (bucketed r)) l)).
  { intros l. destruct (record_all_counts l new_metrics) as [-> ->].
    change (total_attempts new_metrics) with 0.
    change (outcome_sum new_metrics) with 0.
    induction l as [|x l IH]; cbn [List.filter length]; [lia|].
    destruct (bucketed x); cbn [negb length]; lia. }
  split; [apply Hfresh|].
  destruct (run_session_spec calls new_metrics) as (rs' & Hrun & Hall).
  exists rs', (record_all new_metrics rs'). split; [exact Hrun|].
  rewrite Hfresh, (unbucketed_none rs' Hall). cbn [length]. lia.
Qed.

(** ** The batch runner *)

(** The job has a URL, as [apply_to_jobs] tests it. *)
Definition has_url (job : a_job) : bool := truthy (default "" (job !! "url")).

Definition no_url_count (jobs : list a_job) : nat :=
  length (List.filter (λ job, negb (has_url job)) jobs).

Section BatchProperties.

Context {W Sub : Type}.
Variable svc : services W Sub.
Variable profile : a_profile.

(** One pass through the [try] block changes neither [total] nor [skipped]. *)
Lemma attempt_frame job url ats_choice st retry_count w :
  total (attempt svc profile job url ats_choice st retry_count w).1.1.2 = total st
  ∧ skipped (attempt svc profile job url ats_choice st retry_count w).1.1.2 = skipped st.
Proof.
  unfold attempt.
  repeat (case_match; simplify_eq; cbn [fst snd]); auto.
Qed.

(** The retry loop ends within the passes it is given, and changes neither
    [total] nor [skipped]. *)
Lemma retry_loop_total fuel : ∀ job url ats_choice st retry_count ok w,
  S max_retries - retry_count < fuel →
  ∃ st' ok' w',
    retry_loop svc profile fuel job url ats_choice st retry_count ok w = Some (st', ok', w')
    ∧ total st' = total st ∧ skipped st' = skipped st.
Proof.
  induction fuel as [|fuel IH]; intros job url ats_choice st retry_count ok w Hfuel;
    [lia|].
  cbn [retry_loop].
  destruct ((retry_count <=? max_retries) && negb ok) eqn:Hcond;
    [|exists st, ok, w; auto].
  apply andb_true_iff in Hcond as [Hle _]. apply Nat.leb_le in Hle.
  pose proof (attempt_frame job url ats_choice st retry_count w) as [Ht Hs].
  destruct (attempt svc profile job url ats_choice st retry_count w)
    as [[[fl st1] ok1] w1]. cbn [fst snd] in Ht, Hs.
  destruct fl as [| |e].
  - exists st1, ok1, w1. auto.
  - destruct (IH job url ats_choice st1 (S retry_count) ok1 w1) as (st' & ok' & w' & H & Ht' & Hs');
      [lia|]. exists st', ok', w'. rewrite H. split; [reflexivity|]. split; congruence.
  - destruct (max_retries <? S retry_count) eqn:Hlt.
    + exists (incr_failed st1), ok1, w1. auto.
    + destruct (IH job url ats_choice st1 (S (S retry_count)) ok1 w1)
        as (st' & ok' & w' & H & Ht' & Hs'); [lia|].
      exists st', ok', w'. rewrite H. split; [reflexivity|]. split; congruence.
Qed.

(** The loop over the jobs returns; [total] is untouched and [skipped] grows
    by the number of jobs without a URL. *)
Lemma jobs_loop_total jobs : ∀ i n ats_choice delay_seconds st w,
  ∃ st' w',
    jobs_loop svc profile jobs i n ats_choice delay_seconds st w = Some (st', w')
    ∧ total st' = total st
    ∧ skipped st' = skipped st + no_url_count jobs.
Proof.
  unfold no_url_count.
  induction jobs as [|job jobs IH]; intros i n ats_choice delay_seconds st w.
  - exists st, w. cbn. auto with lia.
  - cbn [jobs_loop List.filter]. unfold has_url at 1.
    destruct (truthy (default "" (job !! "url"))) eqn:Hurl; cbn [negb].
    + destruct (retry_loop_total retry_fuel job (default "" (job !! "url")) ats_choice
                  st 0 false w) as (st1 & ok1 & w1 & H & Ht & Hs);
        [unfold retry_fuel; lia|].
      rewrite H.
      destruct (IH (S i) n ats_choice delay_seconds st1
                  (if i <? n - 1
                   then sleep svc (delay_seconds * (if ok1 then 1 else 2)) w1
                   else w1)) as (st' & w' & H' & Ht' & Hs').
      exists st', w'. rewrite H'. split; [reflexivity|]. split; congruence.
    + destruct (IH (S i) n ats_choice delay_seconds (incr_skipped st) w)
        as (st' & w' & H' & Ht' & Hs').
      exists st', w'. rewrite H'. split; [reflexivity|].
      split; [exact Ht'|]. rewrite Hs'. cbn [incr_skipped skipped length]. lia.
Qed.

(** [apply_to_jobs] returns statistics for every job list: [total] is the
    number of jobs and [skipped] the number of jobs without a URL. *)
Lemma apply_to_jobs_total jobs ats_choice delay_seconds w :
  ∃ st w',
    apply_to_jobs svc profile jobs ats_choice delay_seconds w = Some (st, w')
    ∧ total st = length jobs
    ∧ skipped st = no_url_count jobs.
Proof.
  destruct jobs as [|job jobs].
  - exists (new_stats 0), w. cbn. auto.
  - unfold apply_to_jobs.
    destruct (jobs_loop_total (job :: jobs) 0 (length (job :: jobs)) ats_choice
                delay_seconds (new_stats (length (job :: jobs))) w)
      as (st' & w' & H & Ht & Hs).
    exists st', w'. split; [exact H|]. split; [exact Ht|]. exact Hs.
Qed.

End BatchProperties.

(** *** Example runs *)

Definition a_candidate : gmap string string :=
  {[ "first_name" := "Grace"; "email" := "grace@example.org" ]}.

(** The job a CSV row with URL [http://a.com/job] and title [Y] becomes. *)
Definition posted_job : a_job :=
  {[ "url" := "http://a.com/job"; "title" := "Y"; "company" := "Unknown Company";
     "location" := "Unknown Location"; "summary" := ""; "site" := "CSV Import" ]}.

(** The CSV file of the scenario: a header [url,title] and two rows, the
    first with a blank URL. *)
Definition two_rows_csv : csv_file :=
  {| fieldnames := Some ["url"; "title"];
     csv_rows := [ {[ "url" := Some ""; "title" := Some "X" ]};
                   {[ "url" := Some "http://a.com/job"; "title" := Some "Y" ]} ] |}.

(** The same two rows handed to [apply_to_jobs] as they are. *)
Definition two_rows_as_jobs : list a_job :=
  [ {[ "url" := ""; "title" := "X" ]}; {[ "url" := "http://a.com/job"; "title" := "Y" ]} ].

(** Services that all work: documents are generated, the vendor is detected,
    a submitter is found and reports success, the session is updated. *)
Definition working_services : services unit unit :=
  {| customize := λ _ _ w, (Ok ("out/resume.pdf", "out/cover_letter.pdf"), w);
     detect := λ _ w, (Ok (Some "greenhouse"), w);
     get_submitter := λ _ w, (Ok (Some tt), w);
     submit := λ _ _ _ _ _ w, (Ok (Some "Applied"), w);
     append_log_row := λ _ _ _ _ _ _ w, (Ok tt, w);
     mark_done := λ _ w, (Ok tt, w);
     sleep := λ _ w, w |}.

(** The same with a document generator that signals failure the documented
    way, by empty paths. *)
Definition no_documents_services : services unit unit :=
  {| customize := λ _ _ w, (Ok ("", ""), w);
     detect := detect working_services;
     get_submitter := get_submitter working_services;
     submit := submit working_services;
     append_log_row := append_log_row working_services;
     mark_done := mark_done working_services;
     sleep := sleep working_services |}.

(** The same with no submitter to be had, not even the manual one. *)
Definition no_submitter_services : services unit unit :=
  {| customize := customize working_services;
     detect := detect working_services;
     get_submitter := λ name w, (Raise (Exn "ValueError" ("no submitter for " +:+ name)), w);
     submit := submit working_services;
     append_log_row := append_log_row working_services;
     mark_done := mark_done working_services;
     sleep := sleep working_services |}.

(** Services over a world that counts the submissions made: the first two
    are rejected, the third goes through; recording the job in the session
    raises, as it does on an applicator that has no [session] attribute. *)
Definition third_time_services : services nat unit :=
  {| customize := λ _ _ w, (Ok ("out/resume.pdf", "out/cover_letter.pdf"), w);
     detect := λ _ w, (Ok (Some "greenhouse"), w);
     get_submitter := λ _ w, (Ok (Some tt), w);
     submit := λ _ _ _ _ _ w,
       (Ok (Some (if w <? 2 then "Error: form rejected" else "Applied")), S w);
     append_log_row := λ _ _ _ _ _ _ w, (Ok tt, w);
     mark_done := λ _ w,
       (Raise (Exn "AttributeError"
                 "'CSVJobApplicator' object has no attribute 'session'"), w);
     sleep := λ _ w, w |}.

(** Services whose submitter rejects every submission. *)
Definition rejecting_services : services unit unit :=
  {| customize := customize working_services;
     detect := detect working_services;
     get_submitter := get_submitter working_services;
     submit := λ _ _ _ _ _ w, (Ok (Some "Error: form rejected"), w);
     append_log_row := append_log_row working_services;
     mark_done := mark_done working_services;
     sleep := sleep working_services |}.

(** The scenario of the specification: three failed submissions in a row end
    the job as failed after two retries. *)
Lemma three_failures_end_failed :
  apply_to_jobs rejecting_services (Some a_candidate) [posted_job] "auto" 30 tt
  = Some ({| applied := 0; failed := 1; manual := 0; total := 1; retried := 2;
             skipped := 0 |}, tt).
Proof. vm_compute. reflexivity. Qed.

(** *** C3 *)

(** C3 says that [total] equals [applied + manual + failed + skipped] after
    every run, each job reaching exactly one bucket. The code does not keep
    that: a job whose documents cannot be generated leaves the retry loop by a
    [break] that counts nothing, and the run returns [total = 1] with every
    bucket at 0. *)
Theorem C3_document_failure_drops_job :
  ∃ st,
    apply_to_jobs no_documents_services (Some a_candidate) [posted_job] "auto" 30 tt
    = Some (st, tt)
    ∧ total st = 1
    ∧ accounted st = 0.
Proof. eexists. split; [vm_compute; reflexivity|]. split; reflexivity. Qed.

(** The [break] taken when no submitter can be had loses the job in the same
    way. *)
Lemma submitter_failure_drops_job :
  ∃ st,
    apply_to_jobs no_submitter_services (Some a_candidate) [posted_job] "auto" 30 tt
    = Some (st, tt)
    ∧ total st = 1
    ∧ accounted st = 0.
Proof. eexists. split; [vm_compute; reflexivity|]. split; reflexivity. Qed.

(** And a job can be counted twice: accepted at the third attempt, it is
    counted as applied, then the exception raised while the session is
    updated reaches the handler with the retry budget spent, and it is counted
    as failed as well. *)
Lemma late_success_counted_twice :
  ∃ st w,
    apply_to_jobs third_time_services (Some a_candidate) [posted_job] "auto" 30 0
    = Some (st, w)
    ∧ total st = 1
    ∧ applied st = 1 ∧ failed st = 1
    ∧ accounted st = 2.
Proof. eexists _, _. split; [vm_compute; reflexivity|]. repeat split. Qed.

(** *** C8 *)

(** C8, as stated, fails: the reader drops the row with the blank URL, so the
    batch runner is given one job and reports [total = 1] and [skipped = 0]. *)
Lemma C8_counterexample :
  ∃ st,
    apply_to_jobs working_services (Some a_candidate) (csv_jobs (Ok two_rows_csv))
      "auto" 30 tt = Some (st, tt)
    ∧ total st = 1
    ∧ skipped st = 0.
Proof. eexists. split; [vm_compute; reflexivity|]. split; reflexivity. Qed.

(** C8, amended: for the CSV input with the two rows, [read_csv_jobs] skips
    the row with the blank URL with a warning and no error, and returns the
    one job of the other row; the statistics of the batch runner on that list
    report [total = 1] and [skipped = 0], whatever the services do. The counts
    [skipped = 1] and [total = 2] are what the batch runner reports when the
    two rows are passed to [apply_to_jobs] directly as its job list. *)
Theorem C8_blank_url_row {W Sub : Type} (svc : services W Sub) (profile : a_profile)
  (ats_choice : string) (delay_seconds : nat) (w : W) :
  read_csv_jobs (Ok two_rows_csv) = ([posted_job], [SkippingRow 2; Loaded 1])
  ∧ (∃ st w',
       apply_to_jobs svc profile (csv_jobs (Ok two_rows_csv)) ats_choice delay_seconds w
       = Some (st, w')
       ∧ total st = 1 ∧ skipped st = 0)
  ∧ (∃ st w',
       apply_to_jobs svc profile two_rows_as_jobs ats_choice delay_seconds w
       = Some (st, w')
       ∧ total st = 2 ∧ skipped st = 1).
Proof.
  split; [vm_compute; reflexivity|]. split.
  - destruct (apply_to_jobs_total svc profile (csv_jobs (Ok two_rows_csv))
                ats_choice delay_seconds w) as (st & w' & H & Ht & Hs).
    exists st, w'. split; [exact H|]. split; [exact Ht|exact Hs].
  - destruct (apply_to_jobs_total svc profile two_rows_as_jobs
                ats_choice delay_seconds w) as (st & w' & H & Ht & Hs).
    exists st, w'. split; [exact H|]. split; [exact Ht|exact Hs].
Qed.

(** * Further properties of the batch runner *)

(** The number of jobs that have a URL. *)
Definition with_url_count (jobs : list a_job) : nat :=
  length (List.filter has_url jobs).

(** What one pass through the [try] block may do to the statistics, given
    the value of [retry_count] it starts with, the way it ends and the
    success flag it leaves. *)
Definition attempt_shape (st st' : stats) (retry_count : nat) (fl : flow) (ok : bool)
  : Prop :=
  total st' = total st ∧ skipped st' = skipped st
  ∧ retried st' = retried st + (if 0 <? retry_count then 1 else 0)
  ∧ match fl, ok with
    | Break, false =>
        applied st' = applied st ∧ manual st' = manual st ∧ failed st' = failed st
    | Next, false =>
        applied st' = applied st ∧ manual st' = manual st
        ∧ failed st' = failed st + (if max_retries <=? retry_count then 1 else 0)
    | Break, true | Raised _, true =>
        applied st' + manual st' = S (applied st + manual st)
        ∧ applied st ≤ applied st' ∧ manual st ≤ manual st'
        ∧ failed st' = failed st
    | Next, true | Raised _, false => False
    end.

Section BatchBounds.

Context {W Sub : Type}.
Variable svc : services W Sub.
Variable profile : a_profile.

Lemma attempt_has_shape job url ats_choice st retry_count w :
  attempt_shape st (attempt svc profile job url ats_choice st retry_count w).1.1.2
    retry_count
    (attempt svc profile job url ats_choice st retry_count w).1.1.1
    (attempt svc profile job url ats_choice st retry_count w).1.2.
Proof.
  unfold attempt, attempt_shape.
  repeat (case_match; simplify_eq; cbn [fst snd]);
    cbn [incr_retried incr_applied incr_manual incr_failed
         applied failed manual total retried skipped];
    repeat split; lia.
Qed.

(** The retry loop of one job: it counts the job at most once as applied or
    manual and at most once as failed, retries at most [max_retries] times,
    and lowers no counter. Entered with the budget spent or the flag set, it
    changes nothing. *)
Lemma retry_loop_bounds fuel : ∀ job url ats_choice st retry_count ok w st' ok' w',
  retry_loop svc profile fuel job url ats_choice st retry_count ok w = Some (st', ok', w') →
  (max_retries < retry_count ∨ ok = true → st' = st)
  ∧ applied st ≤ applied st' ∧ manual st ≤ manual st' ∧ failed st ≤ failed st'
  ∧ applied st' + manual st' ≤ applied st + manual st + (if ok then 0 else 1)
  ∧ failed st' ≤ failed st + 1
  ∧ retried st ≤ retried st'
  ∧ retried st' ≤ retried st + (S max_retries - Nat.max retry_count 1).
Proof.
  induction fuel as [|fuel IH]; intros job url ats_choice st retry_count ok w st' ok' w';
    [discriminate|].
  cbn [retry_loop].
  destruct ((retry_count <=? max_retries) && negb ok) eqn:Hcond.
  - apply andb_true_iff in Hcond as [Hle Hok]. apply Nat.leb_le in Hle.
    apply negb_true_iff in Hok. subst ok.
    pose proof (attempt_has_shape job url ats_choice st retry_count w) as Hshape.
    destruct (attempt svc profile job url ats_choice st retry_count w)
      as [[[fl st1] ok1] w1]. cbn [fst snd] in Hshape.
    destruct Hshape as (_ & _ & Hr & Hcase). unfold max_retries in *.
    destruct fl as [| |e].
    + intros [= <- <- <-]. split; [intros [?|?]; [lia|discriminate]|].
      destruct ok1; destruct (0 <? retry_count); lia.
    + destruct ok1; [contradiction|]. intros Hloop.
      destruct (IH _ _ _ _ _ _ _ _ _ _ Hloop) as (Hsame & ? & ? & ? & ? & ? & ? & ?).
      split; [intros [?|?]; [lia|discriminate]|].
      destruct (2 <=? retry_count) eqn:Hspent.
      * apply Nat.leb_le in Hspent. rewrite Hsame by (left; lia).
        destruct (0 <? retry_count); lia.
      * apply Nat.leb_gt in Hspent. destruct (0 <? retry_count) eqn:Hfirst;
          [apply Nat.ltb_lt in Hfirst|apply Nat.ltb_ge in Hfirst]; lia.
    + destruct ok1; [|contradiction].
      destruct (2 <? S retry_count) eqn:Hlt.
      * intros [= <- <- <-]. split; [intros [?|?]; [lia|discriminate]|].
        cbn [incr_failed applied manual failed retried].
        destruct (0 <? retry_count); lia.
      * intros Hloop. apply Nat.ltb_ge in Hlt.
        destruct (IH _ _ _ _ _ _ _ _ _ _ Hloop) as (Hsame & _).
        rewrite Hsame by (right; reflexivity).
        split; [intros [?|?]; [lia|discriminate]|].
        destruct (0 <? retry_count) eqn:Hfirst;
          [apply Nat.ltb_lt in Hfirst|apply Nat.ltb_ge in Hfirst]; lia.
  - intros [= <- <- <-]. split; [reflexivity|]. destruct ok; lia.
Qed.

Lemma jobs_loop_bounds jobs : ∀ i n ats_choice delay_seconds st w st' w',
  jobs_loop svc profile jobs i n ats_choice delay_seconds st w = Some (st', w') →
  applied st ≤ applied st' ∧ manual st ≤ manual st' ∧ failed st ≤ failed st'
  ∧ retried st ≤ retried st'
  ∧ applied st' + manual st' ≤ applied st + manual st + with_url_count jobs
  ∧ failed st' ≤ failed st + with_url_count jobs
  ∧ retried st' ≤ retried st + max_retries * with_url_count jobs.
Proof.
  unfold with_url_count.
  induction jobs as [|job jobs IH]; intros i n ats_choice delay_seconds st w st' w'.
  - cbn. intros [= <- <-]. lia.
  - cbn [jobs_loop List.filter].
    change (has_url job) with (truthy (default "" (job !! "url"))).
    destruct (truthy (default "" (job !! "url"))) eqn:Hurl; cbn [negb].
    + destruct (retry_loop svc profile retry_fuel job (default "" (job !! "url"))
                  ats_choice st 0 false w) as [[[st1 ok1] w1]|] eqn:Hloop; [|discriminate].
      intros Hrest. apply IH in Hrest.
      apply retry_loop_bounds in Hloop. destruct Hloop as (_ & Hloop).
      unfold max_retries in *. cbn [length]. cbn in Hloop. lia.
    + intros Hrest. apply IH in Hrest.
      cbn [incr_skipped applied manual failed retried] in Hrest. lia.
Qed.

End BatchBounds.


(** No job is counted more than once as applied or manual, nor more than once
    as failed, and none is retried more than [max_retries] times: the
    counters are bounded by the number of jobs that have a URL. *)
Theorem batch_counters_bounded {W Sub : Type} (svc : services W Sub)
  (profile : a_profile) (jobs : list a_job) (ats_choice : string)
  (delay_seconds : nat) (w : W) :
  ∃ st w',
    apply_to_jobs svc profile jobs ats_choice delay_seconds w = Some (st, w')
    ∧ applied st + manual st ≤ with_url_count jobs
    ∧ failed st ≤ with_url_count jobs
    ∧ retried st ≤ max_retries * with_url_count jobs
    ∧ accounted st ≤ total st + with_url_count jobs.
Proof.
  destruct (apply_to_jobs_total svc profile jobs ats_choice delay_seconds w)
    as (st & w' & H & Ht & Hs).
  exists st, w'. split; [exact H|].
  assert (Hsplit : length jobs = with_url_count jobs + no_url_count jobs).
  { unfold with_url_count, no_url_count. clear.
    induction jobs as [|job jobs IH]; [reflexivity|].
    cbn [List.filter length]. destruct (has_url job); cbn [negb length]; lia. }
  unfold apply_to_jobs in H. destruct jobs as [|job jobs].
  - injection H as <- _. cbn. lia.
  - apply jobs_loop_bounds in H.
    cbn [new_stats applied manual failed retried] in H.
    unfold accounted. lia.
Qed.

(** A list in which no job has a URL: every job is skipped and no service is
    called, not even the pause between jobs, so the world is left as it
    was. *)
Theorem batch_without_urls_is_inert {W Sub : Type} (svc : services W Sub)
  (profile : a_profile) (jobs : list a_job) (ats_choice : string)
  (delay_seconds : nat) (w : W) :
  forallb (λ job, negb (has_url job)) jobs = true →
  apply_to_jobs svc profile jobs ats_choice delay_seconds w
  = Some ({| applied := 0; failed := 0; manual := 0; total := length jobs;
             retried := 0; skipped := length jobs |}, w).
Proof.
  intros Hnone.
  assert (Hloop : ∀ l i n st, forallb (λ job, negb (has_url job)) l = true →
    jobs_loop svc profile l i n ats_choice delay_seconds st w
    = Some ({| applied := applied st; failed := failed st; manual := manual st;
               total := total st; retried := retried st;
               skipped := skipped st + length l |}, w)).
  { clear. induction l as [|job l IH]; intros i n st Hl.
    - cbn. destruct st. cbn. rewrite Nat.add_0_r. reflexivity.
    - cbn [forallb] in Hl. apply andb_true_iff in Hl as [Hjob Hl].
      cbn [jobs_loop]. unfold has_url in Hjob. rewrite Hjob.
      rewrite (IH _ _ _ Hl). cbn [incr_skipped applied failed manual total retried
        skipped length]. do 3 f_equal. lia. }
  destruct jobs as [|job jobs]; [reflexivity|].
  unfold apply_to_jobs. rewrite (Hloop _ _ _ _ Hnone). reflexivity.
Qed.

Lemma batch_without_urls_is_inert_witness :
  apply_to_jobs working_services (Some a_candidate)
    [ {[ "title" := "X" ]}; {[ "url" := ""; "title" := "Z" ]} ] "auto" 30 tt
  = Some ({| applied := 0; failed := 0; manual := 0; total := 2;
             retried := 0; skipped := 2 |}, tt).
Proof.
  apply (batch_without_urls_is_inert working_services (Some a_candidate)
           [ {[ "title" := "X" ]}; {[ "url" := ""; "title" := "Z" ]} ] "auto" 30 tt).
  vm_compute. reflexivity.
Defined.

Section HealthyBatch.

Context {W Sub : Type}.
Variable svc : services W Sub.
Variable profile : a_profile.

(** The three conditions under which no [break] loses a job and no exception
    reaches the handler of the retry loop: documents are always produced, a
    submitter is always found, and recording the job in the session never
    raises. *)
Definition documents_always : Prop :=
  ∀ job w, truthy (_generate_documents_with_fallback svc profile job w).1.1 = true.

Definition submitter_always : Prop :=
  ∀ ats_name w, is_Some (_get_submitter_with_fallback svc ats_name w).1.

Definition session_always : Prop :=
  ∀ job w, is_ok (mark_done svc job w).1 = true.

Lemma attempt_healthy job url ats_choice st retry_count w :
  documents_always → submitter_always → session_always →
  let out := attempt svc profile job url ats_choice st retry_count w in
  (out.1.1.1 = Break ∧ out.1.2 = true ∧ accounted out.1.1.2 = S (accounted st))
  ∨ (out.1.1.1 = Next ∧ out.1.2 = false
     ∧ accounted out.1.1.2
       = accounted st + (if max_retries <=? retry_count then 1 else 0)).
Proof.
  intros Hdocs Hsub Hdone. cbn zeta. unfold attempt.
  destruct (if 0 <? retry_count then _ else _) as [st0 w0] eqn:Hpre.
  assert (Hacc : accounted st0 = accounted st).
  { destruct (0 <? retry_count); injection Hpre as <- <-; reflexivity. }
  specialize (Hdocs job w0).
  destruct (_generate_documents_with_fallback svc profile job w0) as [[pdf_cv pdf_cl] w1].
  cbn [fst snd] in Hdocs. rewrite Hdocs. cbn [negb].
  destruct (_detect_ats_with_fallback svc url ats_choice w1) as [detected w2].
  specialize (Hsub detected w2).
  destruct (_get_submitter_with_fallback svc detected w2) as [[submitter|] w3];
    [|destruct Hsub; discriminate].
  destruct (_submit_application_with_timeout svc profile submitter job pdf_cv pdf_cl w3)
    as [status w4].
  destruct (status_says status "Applied" "Success").
  - specialize (Hdone job (_log_application_result svc profile job status pdf_cv pdf_cl
                             detected retry_count w4)).
    destruct (mark_done svc job _) as [[|e] w5]; [|discriminate].
    left. cbn [fst snd]. repeat split. unfold accounted in *. cbn. lia.
  - destruct (status_says status "Manual" "Review").
    + specialize (Hdone job (_log_application_result svc profile job status pdf_cv pdf_cl
                               detected retry_count w4)).
      destruct (mark_done svc job _) as [[|e] w5]; [|discriminate].
      left. cbn [fst snd]. repeat split. unfold accounted in *. cbn. lia.
    + right. destruct (max_retries <=? retry_count); cbn [fst snd]; repeat split;
        unfold accounted in *; cbn; lia.
Qed.

Lemma retry_loop_healthy fuel : ∀ job url ats_choice st retry_count w st' ok' w',
  documents_always → submitter_always → session_always →
  retry_count ≤ max_retries →
  retry_loop svc profile fuel job url ats_choice st retry_count false w
  = Some (st', ok', w') →
  accounted st' = S (accounted st).
Proof.
  induction fuel as [|fuel IH];
    intros job url ats_choice st retry_count w st' ok' w' Hdocs Hsub Hdone Hle;
    [discriminate|].
  cbn [retry_loop]. apply Nat.leb_le in Hle as Hleb. rewrite Hleb. cbn [andb negb].
  pose proof (attempt_healthy job url ats_choice st retry_count w Hdocs Hsub Hdone) as H.
  cbn zeta in H.
  destruct (attempt svc profile job url ats_choice st retry_count w)
    as [[[fl st1] ok1] w1]. cbn [fst snd] in H.
  destruct H as [(-> & -> & Hacc)|(-> & -> & Hacc)].
  - intros [= <- <- <-]. exact Hacc.
  - destruct (max_retries <=? retry_count) eqn:Hspent.
    + apply Nat.leb_le in Hspent. intros Hloop.
      destruct fuel as [|fuel]; [discriminate|]. cbn [retry_loop] in Hloop.
      assert (Hover : (S retry_count <=? max_retries) = false)
        by (apply Nat.leb_gt; lia).
      rewrite Hover in Hloop. cbn [andb] in Hloop.
      injection Hloop as <- <- <-. lia.
    + apply Nat.leb_gt in Hspent. intros Hloop.
      apply IH in Hloop; [lia|assumption..|lia].
Qed.


(** With no profile loaded no document is generated, so every job that has a
    URL leaves the retry loop at once and is counted nowhere: the run ends
    with the four counters of applied, failed, manual and retried at 0. *)
Theorem batch_without_profile_counts_nothing (jobs : list a_job) (ats_choice : string)
  (delay_seconds : nat) (w : W) :
  profile_loaded profile = None →
  ∃ st w',
    apply_to_jobs svc profile jobs ats_choice delay_seconds w = Some (st, w')
    ∧ applied st = 0 ∧ failed st = 0 ∧ manual st = 0 ∧ retried st = 0
    ∧ accounted st = no_url_count jobs.
Proof.
  intros Hnone.
  destruct (apply_to_jobs_total svc profile jobs ats_choice delay_seconds w)
    as (st & w' & H & Ht & Hs).
  exists st, w'. split; [exact H|].
  assert (Hloop : ∀ l i n st0 w0 st1 w1,
    jobs_loop svc profile l i n ats_choice delay_seconds st0 w0 = Some (st1, w1) →
    applied st1 = applied st0 ∧ failed st1 = failed st0
    ∧ manual st1 = manual st0 ∧ retried st1 = retried st0).
  { clear - Hnone. induction l as [|job l IH]; intros i n st0 w0 st1 w1.
    - cbn. intros [= <- <-]. auto.
    - cbn [jobs_loop].
      destruct (truthy (default "" (job !! "url"))); cbn [negb].
      + unfold retry_fuel. cbn [retry_loop]. cbn [Nat.leb max_retries andb negb].
        unfold attempt. cbn [Nat.ltb Nat.leb].
        unfold _generate_documents_with_fallback. rewrite Hnone.
        cbn [truthy negb]. intros Hrest. apply IH in Hrest. exact Hrest.
      + intros Hrest. apply IH in Hrest. exact Hrest. }
  unfold apply_to_jobs in H. destruct jobs as [|job jobs].
  - injection H as <- _. cbn. auto.
  - apply Hloop in H. cbn [new_stats applied failed manual retried] in H.
    destruct H as (Ha & Hf & Hm & Hr). unfold accounted. rewrite Ha, Hf, Hm, Hr, Hs.
    auto.
Qed.

End HealthyBatch.


Lemma batch_without_profile_counts_nothing_witness :
  ∃ st w',
    apply_to_jobs working_services None two_rows_as_jobs "auto" 30 tt = Some (st, w')
    ∧ applied st = 0 ∧ failed st = 0 ∧ manual st = 0 ∧ retried st = 0
    ∧ accounted st = no_url_count two_rows_as_jobs.
Proof.
  apply (batch_without_profile_counts_nothing working_services None
           two_rows_as_jobs "auto" 30 tt).
  reflexivity.
Defined.

(** * Further properties of the helpers of the batch runner *)

(** [_detect_ats_with_fallback]: a choice other than [auto] is returned as it
    is and [detect] is not called. With [auto] the name returned is never
    empty and never [unknown]: it is the non-empty name [detect] gave, or one
    of the six names of the URL heuristics; it is [manual] when [detect]
    raises. *)
Theorem detect_fallback_always_names_a_vendor {W Sub : Type} (svc : services W Sub)
  (url ats_choice : string) (w : W) :
  let out := _detect_ats_with_fallback svc url ats_choice w in
  if String.eqb ats_choice "auto"
  then out.1 ≠ "" ∧ out.1 ≠ "unknown"
       ∧ ((detect svc url w).1 = Ok (Some out.1)
          ∨ In out.1 ["workday"; "icims"; "greenhouse"; "bamboohr"; "lever"; "manual"])
       ∧ (is_ok (detect svc url w).1 = false → out.1 = "manual")
  else out = (ats_choice, w).
Proof.
  cbn zeta. unfold _detect_ats_with_fallback.
  destruct (String.eqb ats_choice "auto"); cbn [negb]; [|reflexivity].
  destruct (detect svc url w) as [[detected|e] w1]; cbn [fst snd is_ok].
  - assert (Hurl : ∀ name,
      name = (if contains "workday" (lower url) then "workday"
              else if contains "icims" (lower url) then "icims"
              else if contains "greenhouse" (lower url) then "greenhouse"
              else if contains "bamboohr" (lower url) then "bamboohr"
              else if contains "lever" (lower url) then "lever" else "manual") →
      name ≠ "" ∧ name ≠ "unknown"
      ∧ (Ok detected = Ok (Some name)
         ∨ In name ["workday"; "icims"; "greenhouse"; "bamboohr"; "lever"; "manual"])
      ∧ (true = false → name = "manual")).
    { intros name ->.
      repeat (match goal with |- context [if ?b then _ else _] => destruct b end);
        (split; [discriminate|]); (split; [discriminate|]);
        (split; [right; cbn; tauto|discriminate]). }
    destruct detected as [name|]; [|apply Hurl; reflexivity].
    destruct (truthy name && negb (String.eqb name "unknown")) eqn:Hname;
      [|apply Hurl; reflexivity].
    apply andb_true_iff in Hname as [Ht Hu]. apply negb_true_iff in Hu.
    cbn [fst]. split; [intros ->; discriminate|].
    split; [intros ->; discriminate|]. split; [left; reflexivity|discriminate].
  - split; [discriminate|]. split; [discriminate|].
    split; [right; cbn; tauto|reflexivity].
Qed.

(** The text "Failed: " cannot start a match of any of the four words the
    batch runner looks for in a status. *)
Lemma failed_prefix_hides_nothing msg :
  contains "Applied" ("Failed: " +:+ msg) = contains "Applied" msg
  ∧ contains "Success" ("Failed: " +:+ msg) = contains "Success" msg
  ∧ contains "Manual" ("Failed: " +:+ msg) = contains "Manual" msg
  ∧ contains "Review" ("Failed: " +:+ msg) = contains "Review" msg.
Proof. repeat split; reflexivity. Qed.


(** Services whose submitter gives up waiting for the confirmation banner:
    the browser library raises its own time-out error, whose message names
    the text it waited for. *)
Definition impatient_services : services unit unit :=
  {| customize := customize working_services;
     detect := detect working_services;
     get_submitter := get_submitter working_services;
     submit := λ _ _ _ _ _ w,
       (Raise (Exn "playwright.TimeoutError"
                 "Timeout 30000ms exceeded waiting for text=Success"), w);
     append_log_row := append_log_row working_services;
     mark_done := mark_done working_services;
     sleep := sleep working_services |}.


(** * Further properties of the CSV reader *)

(** [strip] leaves nothing to strip. *)
Lemma lstrip_length s : String.length (lstrip s) ≤ String.length s.
Proof.
  induction s as [|c t IH]; [reflexivity|]. cbn [lstrip].
  destruct (is_space c); cbn [String.length]; lia.
Qed.

Lemma lstrip_fixed c t : lstrip (String c t) = String c t → is_space c = false.
Proof.
  cbn [lstrip]. destruct (is_space c); [|reflexivity].
  intros H. pose proof (lstrip_length t) as Hlen. rewrite H in Hlen.
  cbn [String.length] in Hlen. lia.
Qed.

Lemma lstrip_idem s : lstrip (lstrip s) = lstrip s.
Proof.
  induction s as [|c t IH]; [reflexivity|]. cbn [lstrip].
  destruct (is_space c) eqn:Hc; [exact IH|]. cbn [lstrip]. rewrite Hc. reflexivity.
Qed.

Lemma rstrip_cons c t :
  rstrip (String c t)
  = match rstrip t with
    | EmptyString => if is_space c then EmptyString else String c EmptyString
    | String c' t' => String c (String c' t')
    end.
Proof. cbn [rstrip]. destruct (rstrip t); reflexivity. Qed.

Lemma rstrip_idem s : rstrip (rstrip s) = rstrip s.
Proof.
  induction s as [|c t IH]; [reflexivity|]. rewrite rstrip_cons.
  destruct (rstrip t) as [|c' t'] eqn:Ht.
  - destruct (is_space c) eqn:Hc; [reflexivity|]. cbn [rstrip]. rewrite Hc. reflexivity.
  - rewrite rstrip_cons, IH. reflexivity.
Qed.

Lemma lstrip_rstrip s : lstrip s = s → lstrip (rstrip s) = rstrip s.
Proof.
  destruct s as [|c t]; [reflexivity|]. intros H. apply lstrip_fixed in H.
  rewrite rstrip_cons. destruct (rstrip t).
  - rewrite H. cbn [lstrip]. rewrite H. reflexivity.
  - cbn [lstrip]. rewrite H. reflexivity.
Qed.

Lemma strip_idem s : strip (strip s) = strip s.
Proof.
  unfold strip. rewrite (lstrip_rstrip (lstrip s)) by apply lstrip_idem.
  apply rstrip_idem.
Qed.

(** What every job built by the reader looks like: the URL is there, is not
    empty and carries no surrounding blanks; the five other keys are there;
    the site is [CSV Import]. *)
Definition well_read (job : a_job) : Prop :=
  (∃ url, job !! "url" = Some url ∧ truthy url = true ∧ strip url = url)
  ∧ job !! "site" = Some "CSV Import"
  ∧ is_Some (job !! "title") ∧ is_Some (job !! "company")
  ∧ is_Some (job !! "location") ∧ is_Some (job !! "summary").

Lemma well_read_has_url job : well_read job → has_url job = true.
Proof. intros ((url & Hurl & Ht & _) & _). unfold has_url. rewrite Hurl. exact Ht. Qed.

Lemma row_get_strip_stripped row key d v :
  row_get_strip row key d = Ok v → strip v = v.
Proof.
  unfold row_get_strip. destruct (row !! key) as [[x|]|]; intros [= <-];
    apply strip_idem.
Qed.

Lemma job_of_row_well_read row url job :
  row_get_strip row "url" "" = Ok url → truthy url = true →
  job_of_row row = Ok job → well_read job.
Proof.
  intros Hget Ht. unfold job_of_row, row_index_strip.
  pose proof (row_get_strip_stripped _ _ _ _ Hget) as Hstrip.
  unfold row_get_strip in Hget.
  destruct (row !! "url") as [[v|]|] eqn:Hrow;
    [|discriminate|injection Hget as <-; discriminate].
  - injection Hget as <-. cbn [bind].
    destruct (row_get_strip row "title" "Unknown Position") as [title|]; [|discriminate].
    destruct (row_get_strip row "company" "Unknown Company") as [company|]; [|discriminate].
    destruct (row_get_strip row "location" "Unknown Location") as [location|];
      [|discriminate].
    destruct (row_get_strip row "summary" "") as [summary|]; [|discriminate].
    cbn [bind]. intros [= <-]. unfold well_read.
    repeat (rewrite ?lookup_insert_eq; rewrite ?lookup_insert_ne by discriminate).
    split; [exists (strip v); auto|]. repeat split; eauto.
Qed.

Lemma rows_loop_well_read rows : ∀ row_num jobs out jobs' out',
  rows_loop rows row_num jobs out = (Ok jobs', out') →
  Forall well_read jobs → Forall well_read jobs'.
Proof.
  induction rows as [|row rows IH]; intros row_num jobs out jobs' out'.
  - cbn. intros [= <- _] H. exact H.
  - cbn [rows_loop].
    destruct (row_get_strip row "url" "") as [url|e] eqn:Hget; [|discriminate].
    destruct (truthy url) eqn:Ht; cbn [negb].
    + destruct (job_of_row row) as [job|e] eqn:Hjob; [|discriminate].
      intros Hloop Hall. apply (IH _ _ _ _ _ Hloop).
      apply Forall_app. split; [exact Hall|].
      constructor; [|constructor]. eapply job_of_row_well_read; eassumption.
    + intros Hloop Hall. apply (IH _ _ _ _ _ Hloop). exact Hall.
Qed.

Lemma read_csv_jobs_well_read file : Forall well_read (read_csv_jobs file).1.
Proof.
  unfold read_csv_jobs. destruct file as [f|e].
  - destruct (fieldnames f) as [[|name names]|]; try constructor.
    destruct (bool_decide _); [|constructor].
    destruct (rows_loop (csv_rows f) 2 [] []) as [[jobs|e] out] eqn:Hloop;
      [|constructor].
    cbn [fst]. eapply rows_loop_well_read; [exact Hloop|constructor].
  - destruct (String.eqb _ _); constructor.
Qed.

(** Every job [read_csv_jobs] returns, for any file and any failure while
    reading it, has a non-empty URL without surrounding blanks, the site
    [CSV Import] and a title, a company, a location and a summary. *)
Theorem csv_jobs_are_well_formed (file : res csv_file) :
  Forall well_read (read_csv_jobs file).1
  ∧ Forall (λ job, has_url job = true) (csv_jobs file).
Proof.
  split; [apply read_csv_jobs_well_read|].
  unfold csv_jobs, filter_applied_jobs.
  eapply Forall_impl; [apply read_csv_jobs_well_read|]. apply well_read_has_url.
Qed.

(** On the CSV path the batch runner never skips a job: whatever the file and
    the services, [skipped] is 0 and [total] is the number of jobs read. *)
Theorem csv_path_never_skips {W Sub : Type} (svc : services W Sub)
  (profile : a_profile) (file : res csv_file) (ats_choice : string)
  (delay_seconds : nat) (w : W) :
  ∃ st w',
    apply_to_jobs svc profile (csv_jobs file) ats_choice delay_seconds w = Some (st, w')
    ∧ skipped st = 0
    ∧ total st = length (csv_jobs file).
Proof.
  destruct (apply_to_jobs_total svc profile (csv_jobs file) ats_choice delay_seconds w)
    as (st & w' & H & Ht & Hs).
  exists st, w'. split; [exact H|]. split; [|exact Ht].
  rewrite Hs. unfold no_url_count.
  assert (Hall : Forall (λ job, has_url job = true) (csv_jobs file)).
  { unfold csv_jobs, filter_applied_jobs.
    eapply Forall_impl; [apply read_csv_jobs_well_read|]. apply well_read_has_url. }
  clear H Ht Hs.
  induction Hall as [|job jobs Hjob _ IH]; [reflexivity|].
  cbn [List.filter]. rewrite Hjob. exact IH.
Qed.

(** The cell of a row under [key] is missing its value: the row was shorter
    than the header. *)
Definition none_cell (row : gmap string (option string)) (key : string) : bool :=
  match row !! key with
  | Some None => true
  | _ => false
  end.

(** The URL of the row is blank: no such cell, or nothing but blanks in it. *)
Definition blank_url (row : gmap string (option string)) : bool :=
  match row !! "url" with
  | Some (Some v) => negb (truthy (strip v))
  | Some None => false
  | None => true
  end.

(** The row makes the reader raise: its URL cell has no value, or its URL is
    not blank and one of the four other cells the reader strips has none. *)
Definition breaks_reader (row : gmap string (option string)) : bool :=
  none_cell row "url"
  || (negb (blank_url row)
      && existsb (none_cell row) ["title"; "company"; "location"; "summary"]).

(** The row numbers, counted from [row_num], of the rows with a blank URL. *)
Fixpoint blank_row_numbers (rows : list (gmap string (option string))) (row_num : nat)
  : list nat :=
  match rows with
  | [] => []
  | row :: rest =>
      if blank_url row then row_num :: blank_row_numbers rest (S row_num)
      else blank_row_numbers rest (S row_num)
  end.

(** The stripped URL cell of a row. *)
Definition url_of_row (row : gmap string (option string)) : option string :=
  match row !! "url" with
  | Some (Some v) => Some (strip v)
  | _ => None
  end.

Lemma row_step row :
  match row_get_strip row "url" "" with
  | Raise _ => breaks_reader row = true
  | Ok url =>
      if truthy url
      then blank_url row = false
           ∧ match job_of_row row with
             | Ok job => breaks_reader row = false ∧ job !! "url" = url_of_row row
             | Raise _ => breaks_reader row = true
             end
      else blank_url row = true ∧ breaks_reader row = false
  end.
Proof.
  unfold row_get_strip, breaks_reader, blank_url, none_cell, url_of_row, job_of_row,
    row_index_strip.
  destruct (row !! "url") as [[v|]|]; [| reflexivity | cbn; auto].
  destruct (truthy (strip v)); [|cbn; auto].
  split; [reflexivity|]. cbn [bind negb andb orb existsb]. unfold row_get_strip.
  destruct (row !! "title") as [[?|]|]; cbn [bind orb]; try reflexivity;
    destruct (row !! "company") as [[?|]|]; cbn [bind orb]; try reflexivity;
    destruct (row !! "location") as [[?|]|]; cbn [bind orb]; try reflexivity;
    destruct (row !! "summary") as [[?|]|]; cbn [bind orb]; try reflexivity;
    (split; [reflexivity|]);
    repeat (rewrite ?lookup_insert_eq; rewrite ?lookup_insert_ne by discriminate);
    reflexivity.
Qed.

Lemma rows_loop_reads rows : ∀ row_num jobs out,
  forallb (λ row, negb (breaks_reader row)) rows = true →
  ∃ js,
    rows_loop rows row_num jobs out
    = (Ok (jobs ++ js), out ++ map SkippingRow (blank_row_numbers rows row_num))
    ∧ map (λ job : a_job, job !! "url") js
      = map url_of_row (List.filter (λ row, negb (blank_url row)) rows).
Proof.
  induction rows as [|row rows IH]; intros row_num jobs out Hall.
  - exists []. cbn. rewrite !app_nil_r. auto.
  - cbn [forallb] in Hall. apply andb_true_iff in Hall as [Hrow Hall].
    apply negb_true_iff in Hrow.
    pose proof (row_step row) as Hstep. cbn [rows_loop blank_row_numbers List.filter].
    destruct (row_get_strip row "url" "") as [url|e]; [|congruence].
    destruct (truthy url); cbn [negb].
    + destruct Hstep as [Hblank Hjob]. rewrite Hblank. cbn [negb].
      destruct (job_of_row row) as [job|e]; [|congruence].
      destruct Hjob as [_ Hurl].
      destruct (IH (S row_num) (jobs ++ [job]) out Hall) as (js & -> & Hjs).
      exists (job :: js). rewrite <- app_assoc. split; [reflexivity|].
      cbn [map]. rewrite Hurl, Hjs. reflexivity.
    + destruct Hstep as [Hblank _]. rewrite Hblank. cbn [negb map].
      destruct (IH (S row_num) jobs (out ++ [SkippingRow row_num]) Hall) as (js & -> & Hjs).
      exists js. rewrite <- app_assoc. split; [reflexivity|exact Hjs].
Qed.

Lemma rows_loop_breaks rows : ∀ row_num jobs out,
  existsb breaks_reader rows = true →
  ∃ e out', rows_loop rows row_num jobs out = (Raise e, out').
Proof.
  induction rows as [|row rows IH]; intros row_num jobs out Hex; [discriminate|].
  cbn [existsb] in Hex. pose proof (row_step row) as Hstep. cbn [rows_loop].
  destruct (row_get_strip row "url" "") as [url|e]; [|eauto].
  destruct (truthy url); cbn [negb].
  - destruct Hstep as [_ Hjob]. destruct (job_of_row row) as [job|e]; [|eauto].
    destruct Hjob as [Hno _]. rewrite Hno in Hex. cbn [orb] in Hex. apply IH, Hex.
  - destruct Hstep as [_ Hno]. rewrite Hno in Hex. cbn [orb] in Hex. apply IH, Hex.
Qed.

(** When the header has a [url] column and no row is short where the reader
    looks, [read_csv_jobs] returns one job per row whose URL is not blank, in
    the order of the file and with the stripped URL of its row; it prints one
    warning per row with a blank URL, numbered from 2 as the lines of the
    file are, and then the number of jobs loaded. *)
Theorem csv_reader_keeps_every_row_with_a_url (f : csv_file) (names : list string) :
  fieldnames f = Some names →
  "url" ∈ names →
  forallb (λ row, negb (breaks_reader row)) (csv_rows f) = true →
  ∃ jobs,
    read_csv_jobs (Ok f)
    = (jobs, map SkippingRow (blank_row_numbers (csv_rows f) 2) ++ [Loaded (length jobs)])
    ∧ map (λ job : a_job, job !! "url") jobs
      = map url_of_row (List.filter (λ row, negb (blank_url row)) (csv_rows f))
    ∧ length jobs + length (blank_row_numbers (csv_rows f) 2) = length (csv_rows f).
Proof.
  intros Hnames Hurl Hrows. unfold read_csv_jobs. rewrite Hnames.
  destruct names as [|name names]; [inversion Hurl|].
  rewrite bool_decide_eq_true_2 by exact Hurl.
  destruct (rows_loop_reads (csv_rows f) 2 [] [] Hrows) as (js & -> & Hjs).
  exists js. cbn [app]. split; [reflexivity|]. split; [exact Hjs|].
  apply (f_equal length) in Hjs. rewrite !length_map in Hjs. rewrite Hjs.
  generalize 2. clear. induction (csv_rows f) as [|row rows IH]; intros n;
    [reflexivity|].
  cbn [List.filter blank_row_numbers length].
  destruct (blank_url row); cbn [negb length]; rewrite <- (IH (S n)); lia.
Qed.

Lemma csv_reader_keeps_every_row_with_a_url_witness :
  ∃ jobs,
    read_csv_jobs (Ok two_rows_csv)
    = (jobs, map SkippingRow (blank_row_numbers (csv_rows two_rows_csv) 2)
             ++ [Loaded (length jobs)])
    ∧ map (λ job : a_job, job !! "url") jobs
      = map url_of_row (List.filter (λ row, negb (blank_url row)) (csv_rows two_rows_csv))
    ∧ length jobs + length (blank_row_numbers (csv_rows two_rows_csv) 2)
      = length (csv_rows two_rows_csv).
Proof.
  apply (csv_reader_keeps_every_row_with_a_url two_rows_csv ["url"; "title"]).
  - reflexivity.
  - apply list_elem_of_In. cbn. tauto.
  - vm_compute. reflexivity.
Defined.

(** A file with one short row too many: the header has three columns, the
    second data row stops after its URL. *)
Definition short_row_csv : csv_file :=
  {| fieldnames := Some ["url"; "title"; "company"];
     csv_rows :=
       [ {[ "url" := Some "http://a.com/job"; "title" := Some "Y";
            "company" := Some "Acme" ]};
         {[ "url" := Some "http://b.com/job"; "title" := None; "company" := None ]} ] |}.

(** One short row loses the whole file: when the header has a [url] column
    and some row has no value in its URL cell, or has a URL and no value in
    its title, company, location or summary cell, [read_csv_jobs] returns no
    job at all, not even those of the rows before it, and its last line is
    the error. *)
Theorem csv_reader_drops_all_on_a_short_row (f : csv_file) (names : list string) :
  fieldnames f = Some names →
  "url" ∈ names →
  existsb breaks_reader (csv_rows f) = true →
  ∃ e out, read_csv_jobs (Ok f) = ([], out ++ [ErrorReading e]).
Proof.
  intros Hnames Hurl Hrows. unfold read_csv_jobs. rewrite Hnames.
  destruct names as [|name names]; [inversion Hurl|].
  rewrite bool_decide_eq_true_2 by exact Hurl.
  destruct (rows_loop_breaks (csv_rows f) 2 [] [] Hrows) as (e & out & ->).
  exists e, out. reflexivity.
Qed.

Lemma csv_reader_drops_all_on_a_short_row_witness :
  ∃ e out, read_csv_jobs (Ok short_row_csv) = ([], out ++ [ErrorReading e]).
Proof.
  apply (csv_reader_drops_all_on_a_short_row short_row_csv ["url"; "title"; "company"]).
  - reflexivity.
  - apply list_elem_of_In. cbn. tauto.
  - vm_compute. reflexivity.
Defined.

(** * Further properties of the form filler and the strategies *)

Lemma fill_loop_filled_mapped profile_data mappings field v : ∀ pg filled out,
  (fill_loop profile_data mappings pg filled out).1.1 !! field = Some v →
  filled !! field = Some v ∨ In field (map fst mappings).
Proof.
  induction mappings as [|[field_name selectors] mappings IH]; intros pg filled out.
  - cbn. auto.
  - cbn [fill_loop map fst In].
    destruct (profile_data !! field_name) as [value|];
      [|intros H; apply IH in H; tauto].
    destruct (truthy value); [|intros H; apply IH in H; tauto].
    destruct (_try_fill_field pg selectors value) as [[] pg'];
      [|intros H; apply IH in H; tauto].
    intros H. apply IH in H as [H|H]; [|tauto].
    destruct (decide (field_name = field)) as [->|Hne]; [tauto|].
    rewrite lookup_insert_ne in H by assumption. tauto.
Qed.

(** The default [_fill_form_fields] reads a profile field with. *)
Definition profile_default (field_name : string) : string :=
  if String.eqb field_name "email" then "Nirajan.tech@gmail.com" else "".

Lemma profile_data_lookup p field v :
  profile_data_of p !! field = Some v →
  In field ["first_name"; "last_name"; "email"; "phone"]
  ∧ v = default (profile_default field) (p !! field).
Proof.
  unfold profile_data_of.
  destruct (decide (field = "phone")) as [->|H1];
    [rewrite lookup_insert_eq; intros [= <-]; cbn; tauto|].
  rewrite lookup_insert_ne by congruence.
  destruct (decide (field = "email")) as [->|H2];
    [rewrite lookup_insert_eq; intros [= <-]; cbn; tauto|].
  rewrite lookup_insert_ne by congruence.
  destruct (decide (field = "last_name")) as [->|H3];
    [rewrite lookup_insert_eq; intros [= <-]; cbn; tauto|].
  rewrite lookup_insert_ne by congruence.
  destruct (decide (field = "first_name")) as [->|H4];
    [rewrite lookup_insert_eq; intros [= <-]; cbn; tauto|].
  rewrite lookup_insert_ne by congruence. rewrite lookup_empty. discriminate.
Qed.

(** Whatever the mapping lists, [_fill_form_fields] records a value only
    under [first_name], [last_name], [email] or [phone], only for a field of
    the mapping, and the value is the non-empty one of the profile (the
    default address for a missing [email]). The fields [resume] and
    [cover_letter] of the mappings are never filled. *)
Theorem form_filler_records_profile_values (pg : page) (p : gmap string string)
  (mappings : field_mapping) (filled : gmap string string) (pg' : page)
  (out : list fill_report) (field v : string) :
  _fill_form_fields pg (Some p) mappings = Ok (filled, pg', out) →
  filled !! field = Some v →
  In field ["first_name"; "last_name"; "email"; "phone"]
  ∧ In field (map fst mappings)
  ∧ truthy v = true
  ∧ v = default (profile_default field) (p !! field)
  ∧ filled !! "resume" = None ∧ filled !! "cover_letter" = None.
Proof.
  rewrite fill_form_fields_dict. intros [= Hloop] Hv.
  assert (Hany : ∀ k x, filled !! k = Some x →
            In k ["first_name"; "last_name"; "email"; "phone"]
            ∧ In k (map fst mappings) ∧ truthy x = true
            ∧ x = default (profile_default k) (p !! k)).
  { intros k x Hk.
    pose proof (fill_loop_filled (profile_data_of p) mappings k x pg ∅ []) as H1.
    pose proof (fill_loop_filled_mapped (profile_data_of p) mappings k x pg ∅ []) as H2.
    rewrite Hloop in H1, H2. cbn [fst] in H1, H2.
    destruct (H1 Hk) as [H|[Hpd Ht]]; [rewrite lookup_empty in H; discriminate|].
    destruct (H2 Hk) as [H|Hin]; [rewrite lookup_empty in H; discriminate|].
    destruct (profile_data_lookup p k x Hpd) as [Hfour ->]. auto. }
  destruct (Hany field v Hv) as (H1 & H2 & H3 & H4).
  repeat split; try assumption.
  - destruct (filled !! "resume") as [x|] eqn:Hx; [|reflexivity].
    destruct (Hany _ _ Hx) as (Hin & _). cbn in Hin.
    repeat (destruct Hin as [Hin|Hin]; [discriminate|]). contradiction.
  - destruct (filled !! "cover_letter") as [x|] eqn:Hx; [|reflexivity].
    destruct (Hany _ _ Hx) as (Hin & _). cbn in Hin.
    repeat (destruct Hin as [Hin|Hin]; [discriminate|]). contradiction.
Qed.

Lemma form_filler_records_profile_values_witness :
  In "email" ["first_name"; "last_name"; "email"; "phone"]
  ∧ In "email" (map fst generic_mapping)
  ∧ truthy "Nirajan.tech@gmail.com" = true
  ∧ "Nirajan.tech@gmail.com"
    = default (profile_default "email")
        (({[ "first_name" := "Grace" ]} : gmap string string) !! "email")
  ∧ (fill_loop (profile_data_of {[ "first_name" := "Grace" ]}) generic_mapping
       email_form ∅ []).1.1 !! "resume" = None
  ∧ (fill_loop (profile_data_of {[ "first_name" := "Grace" ]}) generic_mapping
       email_form ∅ []).1.1 !! "cover_letter" = None.
Proof.
  destruct (fill_loop (profile_data_of {[ "first_name" := "Grace" ]}) generic_mapping
              email_form ∅ []) as [[filled pg'] out] eqn:Hloop.
  apply (form_filler_records_profile_values email_form {[ "first_name" := "Grace" ]}
           generic_mapping filled pg' out "email" "Nirajan.tech@gmail.com").
  - rewrite fill_form_fields_dict, Hloop. reflexivity.
  - vm_compute in Hloop. injection Hloop as <- _ _. vm_compute. reflexivity.
Defined.

(** The loop of the form filler leaves every element that reads as non-empty
    as it is. *)
Lemma fill_loop_keeps profile_data mappings h el : ∀ pg filled out,
  pg_elements pg !! h = Some el →
  reads_empty el = false →
  pg_elements (fill_loop profile_data mappings pg filled out).1.2 !! h = Some el.
Proof.
  induction mappings as [|[field_name selectors] mappings IH]; intros pg filled out Hel Hne.
  - exact Hel.
  - cbn [fill_loop].
    destruct (profile_data !! field_name) as [value|]; [|apply IH; assumption].
    destruct (truthy value); [|apply IH; assumption].
    pose proof (try_fill_keeps pg selectors value h el Hel Hne) as Hkeep.
    destruct (_try_fill_field pg selectors value) as [[] pg1]; cbn [snd] in Hkeep;
      apply IH; assumption.
Qed.

(** The buttons loop of the Workday strategy never touches the state of an
    element, nor the answers of the page. *)
Lemma next_buttons_loop_frame selectors : ∀ pg,
  pg_elements (next_buttons_loop pg selectors) = pg_elements pg
  ∧ pg_query_selector (next_buttons_loop pg selectors) = pg_query_selector pg
  ∧ pg_wait_for_timeout (next_buttons_loop pg selectors) = pg_wait_for_timeout pg.
Proof.
  induction selectors as [|s selectors IH]; intros pg; [auto|].
  cbn [next_buttons_loop].
  destruct (pg_query_selector pg s) as [[button|]|e]; try apply IH.
  destruct (is_visible pg button) as [[]|e]; try apply IH.
  unfold click. destruct (pg_elements pg !! button) as [el|]; [|apply IH].
  destruct (el_click el); [|apply IH].
  destruct (wait_for_timeout (with_clicked pg button)); [auto|].
  destruct (IH (with_clicked pg button)) as (H1 & H2 & H3). rewrite H1, H2, H3. auto.
Qed.


(** A strategy leaves every element that reads as non-empty as it is. *)
Lemma run_strategy_keeps sname m profile pg c h el :
  pg_elements pg !! h = Some el →
  reads_empty el = false →
  pg_elements (run_strategy sname (Ok m) (λ pg _, pg) profile pg c).2 !! h = Some el
  ∧ pg_elements (run_strategy sname (Ok m) _handle_workday_specifics profile pg c).2 !! h
    = Some el.
Proof.
  intros Hel Hne. unfold run_strategy. cbn [bind].
  destruct profile as [p|]; [|split; exact Hel].
  rewrite fill_form_fields_dict.
  pose proof (fill_loop_keeps (profile_data_of p) m h el pg ∅ [] Hel Hne) as Hkeep.
  destruct (fill_loop (profile_data_of p) m pg ∅ []) as [[filled pg'] out].
  cbn [fst snd] in *. split; [exact Hkeep|].
  unfold _handle_workday_specifics.
  destruct (next_buttons_loop_frame next_buttons pg') as (-> & _). exact Hkeep.
Qed.

(** The look-up of the dispatcher, case by case. *)
Lemma selected_cases ats_system :
  let selected :=
    default (total_strategy _apply_generic_strategy) (assoc ats_system strategies) in
  (ats_system = "workday" ∧ selected = total_strategy _apply_workday_strategy)
  ∨ (ats_system = "greenhouse" ∧ selected = total_strategy _apply_greenhouse_strategy)
  ∨ (ats_system = "lever" ∧ selected = total_strategy _apply_lever_strategy)
  ∨ (ats_system = "bamboohr" ∧ selected = total_strategy _apply_bamboohr_strategy)
  ∨ (selected = total_strategy _apply_generic_strategy
     ∧ (ats_system = "generic"
        ∨ ¬ In ats_system ["workday"; "greenhouse"; "lever"; "bamboohr"; "generic"])).
Proof.
  cbn zeta. unfold strategies. cbn [assoc].
  destruct (String.eqb_spec ats_system "workday") as [->|H1]; [auto|].
  destruct (String.eqb_spec ats_system "greenhouse") as [->|H2]; [auto|].
  destruct (String.eqb_spec ats_system "lever") as [->|H3]; [auto 6|].
  destruct (String.eqb_spec ats_system "bamboohr") as [->|H4]; [auto 6|].
  destruct (String.eqb_spec ats_system "generic") as [->|H5]; [auto 7|].
  do 4 right. split; [reflexivity|]. right. cbn. intuition congruence.
Qed.

(** The strategy selected for a vendor name, with the name it signs its
    results with and the frame it keeps. *)
Lemma selected_strategy_facts ats_system :
  ∃ f,
    default (total_strategy _apply_generic_strategy) (assoc ats_system strategies)
    = total_strategy f
    ∧ (∀ job profile pg c,
         r_strategy (f job profile pg c).1
         = Some (if bool_decide
                      (In ats_system ["workday"; "greenhouse"; "lever"; "bamboohr"])
                 then ats_system else "generic")
         ∧ r_confidence (f job profile pg c).1 = Some c)
    ∧ (∀ job profile pg c h el,
         pg_elements pg !! h = Some el → reads_empty el = false →
         pg_elements (f job profile pg c).2 !! h = Some el).
Proof.
  assert (Hname : ∀ sname mappings after profile pg c,
    r_strategy (run_strategy sname mappings after profile pg c).1 = Some sname
    ∧ r_confidence (run_strategy sname mappings after profile pg c).1 = Some c).
  { intros. unfold run_strategy.
    destruct (bind mappings _) as [[[filled pg'] out]|e]; auto. }
  assert (Hkeep : ∀ sname name profile pg c h el,
    In name ["workday"; "greenhouse"; "generic"] →
    pg_elements pg !! h = Some el → reads_empty el = false →
    pg_elements (run_strategy sname (mappings_index name) (λ pg _, pg) profile pg c).2 !! h
    = Some el
    ∧ pg_elements (run_strategy sname (mappings_index name) _handle_workday_specifics
                     profile pg c).2 !! h = Some el).
  { intros sname name profile pg c h el Hin Hel Hne.
    destruct (mappings_index_ok name Hin) as [m ->].
    apply run_strategy_keeps; assumption. }
  assert (Hkeep' : ∀ sname name profile pg c h el,
    pg_elements pg !! h = Some el → reads_empty el = false →
    pg_elements (run_strategy sname (mappings_get_or_generic name) (λ pg _, pg)
                   profile pg c).2 !! h = Some el).
  { intros sname name profile pg c h el Hel Hne.
    destruct (mappings_get_or_generic_ok name) as [m ->].
    apply run_strategy_keeps; assumption. }
  destruct (selected_cases ats_system)
    as [[-> ->]|[[-> ->]|[[-> ->]|[[-> ->]|[-> Hgen]]]]].
  - exists _apply_workday_strategy. split; [reflexivity|]. split.
    + intros. apply Hname.
    + intros job profile pg c h el Hel Hne.
      apply (Hkeep "workday" "workday" profile pg c h el); [cbn; tauto|assumption..].
  - exists _apply_greenhouse_strategy. split; [reflexivity|]. split.
    + intros. apply Hname.
    + intros job profile pg c h el Hel Hne.
      apply (Hkeep "greenhouse" "greenhouse" profile pg c h el);
        [cbn; tauto|assumption..].
  - exists _apply_lever_strategy. split; [reflexivity|]. split.
    + intros. apply Hname.
    + intros job profile pg c h el Hel Hne. apply Hkeep'; assumption.
  - exists _apply_bamboohr_strategy. split; [reflexivity|]. split.
    + intros. apply Hname.
    + intros job profile pg c h el Hel Hne. apply Hkeep'; assumption.
  - exists _apply_generic_strategy. split; [reflexivity|]. split.
    + intros job profile pg c.
      destruct (Hname "generic" (mappings_index "generic") (λ pg _, pg) profile pg c)
        as [Hs Hc].
      split; [|exact Hc]. unfold _apply_generic_strategy. rewrite Hs.
      destruct Hgen as [->|Hnot]; [reflexivity|].
      rewrite bool_decide_eq_false_2; [reflexivity|].
      intros Hin. apply Hnot. cbn in *. tauto.
    + intros job profile pg c h el Hel Hne.
      apply (Hkeep "generic" "generic" profile pg c h el); [cbn; tauto|assumption..].
Qed.

(** The dispatcher, unfolded on the strategy it selects. *)
Lemma optimize_run metrics job profile pg start now :
  ∃ ats_system confidence f,
    detect_ats_system pg (Some (default "" (job !! "url"))) = Ok (ats_system, confidence)
    ∧ default (total_strategy _apply_generic_strategy) (assoc ats_system strategies)
      = total_strategy f
    ∧ optimize_application_flow metrics job profile pg (start, now)
      = Ok (with_timing (f job profile pg confidence).1 (now - start)%float
              ats_system confidence,
            (f job profile pg confidence).2,
            _update_application_metrics metrics
              (with_timing (f job profile pg confidence).1 (now - start)%float
                 ats_system confidence)).
Proof.
  destruct (detect_returns pg (Some (default "" (job !! "url"))))
    as (ats_system & confidence & Hd).
  destruct (selected_strategy_facts ats_system) as (f & Hsel & _).
  exists ats_system, confidence, f. split; [exact Hd|]. split; [exact Hsel|].
  unfold optimize_application_flow, optimize_application_flow_with.
  cbn [with_retry]. unfold optimize_body. rewrite Hd. cbn [bind].
  change (assoc "generic" strategies) with (Some (total_strategy _apply_generic_strategy)).
  cbn [bind]. rewrite Hsel. unfold total_strategy.
  destruct (f job profile pg confidence) as [r pg']. reflexivity.
Qed.

Lemma url_match_in pats url_l name :
  url_match pats url_l = Some name → In name (map fst pats).
Proof.
  unfold url_match. destruct (List.find _ pats) as [[n p]|] eqn:Hf; [|discriminate].
  intros [= <-]. apply find_some in Hf as [Hin _].
  apply (in_map fst) in Hin. exact Hin.
Qed.

Lemma first_crossing_in pg content pats :
  (first_crossing pg content pats).1 = "generic"
  ∨ In (first_crossing pg content pats).1 (map fst pats).
Proof.
  unfold first_crossing. destruct (List.find _ pats) as [[n p]|] eqn:Hf; [|auto].
  right. apply find_some in Hf as [Hin _]. apply (in_map fst) in Hin. exact Hin.
Qed.

(** What [detect_ats_system] returns, case by case. *)
Lemma detect_cases pg job_url :
  match job_url with
  | None => detect_ats_system pg job_url = Ok ("generic", 0.1%float)
  | Some u =>
      match url_match _load_ats_patterns (lower u) with
      | Some name => detect_ats_system pg job_url = Ok (name, 0.9%float)
      | None =>
          detect_ats_system pg job_url
          = Ok (first_crossing pg (safe_execute (pg_content pg) "") _load_ats_patterns)
      end
  end.
Proof.
  unfold detect_ats_system. rewrite detect_unfold. destruct job_url as [u|];
    [|reflexivity].
  unfold detect_try. rewrite url_loop_spec. cbn [bind].
  destruct (url_match _load_ats_patterns (lower u)); cbn [try_except];
    [reflexivity|]. rewrite dom_loop_spec. reflexivity.
Qed.

Lemma detect_names pg job_url name c :
  detect_ats_system pg job_url = Ok (name, c) →
  In name ["workday"; "greenhouse"; "lever"; "bamboohr"; "generic"].
Proof.
  pose proof (detect_cases pg job_url) as H. destruct job_url as [u|].
  - destruct (url_match _load_ats_patterns (lower u)) as [n|] eqn:Hm.
    + rewrite H. intros [= <- _]. apply url_match_in in Hm.
      change (map fst _load_ats_patterns)
        with ["workday"; "greenhouse"; "lever"; "bamboohr"] in Hm.
      cbn [In] in *. tauto.
    + rewrite H. intros Heq. injection Heq as Heq.
      pose proof (first_crossing_in pg (safe_execute (pg_content pg) "")
                    _load_ats_patterns) as Hin.
      rewrite Heq in Hin. cbn [fst] in Hin.
      change (map fst _load_ats_patterns)
        with ["workday"; "greenhouse"; "lever"; "bamboohr"] in Hin.
      cbn [In] in *. destruct Hin as [->|Hin]; tauto.
  - rewrite H. intros [= <- _]. cbn [In]. tauto.
Qed.





(** Every result of the dispatcher is signed consistently: the vendor is one
    of the five names of the dispatch table, the strategy that ran is the one
    of that name, and the confidence the strategy reports is the confidence
    of the detection. *)
Theorem dispatcher_result_is_consistent (metrics : ApplicationMetrics) (job : a_job)
  (profile : a_profile) (pg : page) (clock : a_clock) :
  ∃ r pg' metrics' ats_system,
    optimize_application_flow metrics job profile pg clock = Ok (r, pg', metrics')
    ∧ In ats_system ["workday"; "greenhouse"; "lever"; "bamboohr"; "generic"]
    ∧ r_ats_system r = Some ats_system
    ∧ r_strategy r = Some ats_system
    ∧ r_confidence r = r_ats_confidence r
    ∧ is_Some (r_application_duration r).
Proof.
  destruct clock as [start now].
  destruct (optimize_run metrics job profile pg start now)
    as (ats_system & confidence & f & Hd & Hsel & Hrun).
  destruct (selected_strategy_facts ats_system) as (f' & Hsel' & Hname & _).
  rewrite Hsel in Hsel'.
  assert (Hff : ∀ j p g c, (f j p g c).1 = (f' j p g c).1).
  { intros j p g c.
    apply (f_equal (λ s : strategy_func, s j p g c)) in Hsel'.
    unfold total_strategy in Hsel'.
    destruct (f j p g c) as [r1 g1], (f' j p g c) as [r2 g2].
    injection Hsel' as -> ->. reflexivity. }
  pose proof (detect_names _ _ _ _ Hd) as Hin.
  eexists _, _, _, ats_system. split; [exact Hrun|]. split; [exact Hin|].
  cbn [with_timing r_ats_system r_strategy r_confidence r_ats_confidence
       r_application_duration].
  rewrite Hff. destruct (Hname job profile pg confidence) as [Hs Hc].
  rewrite Hs, Hc. split; [reflexivity|]. split; [|split; [reflexivity|eauto]].
  destruct (bool_decide _) eqn:Hb; [reflexivity|].
  apply bool_decide_eq_false in Hb. cbn in Hin, Hb.
  destruct Hin as [<-|[<-|[<-|[<-|[<-|[]]]]]]; try reflexivity; exfalso; apply Hb; tauto.
Qed.

(** * Further properties of the detector *)

Lemma lower_ascii_idem c : lower_ascii (lower_ascii c) = lower_ascii c.
Proof. destruct c as [[] [] [] [] [] [] [] []]; reflexivity. Qed.

Lemma lower_idem s : lower (lower s) = lower s.
Proof.
  induction s as [|c t IH]; [reflexivity|]. cbn [lower].
  rewrite lower_ascii_idem, IH. reflexivity.
Qed.

(** The detector does not see the case of the URL: a URL and its lower-cased
    form get the same answer on every page. *)
Theorem detection_ignores_url_case (pg : page) (u : string) :
  detect_ats_system pg (Some u) = detect_ats_system pg (Some (lower u)).
Proof.
  pose proof (detect_cases pg (Some u)) as H1.
  pose proof (detect_cases pg (Some (lower u))) as H2.
  cbn beta iota in H1, H2. rewrite lower_idem in H2.
  destruct (url_match _load_ats_patterns (lower u)); congruence.
Qed.

(** No score of the DOM pass is the number 0.9 or the number 0.1: three
    times 0.3 falls short of 0.9 in binary64, and so does every other sum on
    the grid. *)
Definition grid_off_marks (d t : nat) : bool :=
  negb (weighted d t =? 0.9)%float && negb (weighted d t =? 0.1)%float.

Lemma grid_off_marks_checked :
  forallb (λ d, forallb (grid_off_marks d) (seq 0 4)) (seq 0 4) = true.
Proof. vm_compute. reflexivity. Qed.

Lemma weighted_score_off_marks pg content entry :
  small entry = true →
  (weighted_score pg content entry.2 =? 0.9)%float = false
  ∧ (weighted_score pg content entry.2 =? 0.1)%float = false.
Proof.
  unfold small. intros H. apply andb_true_iff in H as [Hd Ht].
  apply Nat.leb_le in Hd, Ht.
  pose proof (hits_le (probe_hit pg) (dom_selectors entry.2)).
  pose proof (hits_le (text_hit content) (text_indicators entry.2)).
  pose proof (hits_le (probe_hit pg) (form_patterns entry.2)).
  pose proof grid_off_marks_checked as Hg.
  rewrite forallb_forall in Hg.
  specialize (Hg (hits (probe_hit pg) (dom_selectors entry.2))).
  rewrite forallb_forall in Hg.
  specialize (Hg ltac:(apply in_seq; lia)
                (hits (text_hit content) (text_indicators entry.2)
                 + hits (probe_hit pg) (form_patterns entry.2))
                ltac:(apply in_seq; lia)).
  unfold grid_off_marks in Hg. apply andb_true_iff in Hg as [Hnine Hone].
  apply negb_true_iff in Hnine, Hone. split; assumption.
Qed.

(** The confidence tells how the vendor was found: it is exactly 0.9 if and
    only if one of the URL substrings of the catalog occurs in the
    lower-cased URL, and exactly 0.1 if and only if there was no URL to look
    at; a confidence from the DOM pass is never one of the two. *)
Theorem confidence_tells_the_detection_path (pg : page) (job_url : option string) :
  ∃ ats_name confidence,
    detect_ats_system pg job_url = Ok (ats_name, confidence)
    ∧ (confidence =? 0.9)%float
      = match job_url with
        | Some u => bool_decide (is_Some (url_match _load_ats_patterns (lower u)))
        | None => false
        end
    ∧ (confidence =? 0.1)%float
      = match job_url with Some _ => false | None => true end.
Proof.
  pose proof (detect_cases pg job_url) as H. destruct job_url as [u|].
  - destruct (url_match _load_ats_patterns (lower u)) as [name|] eqn:Hm.
    + exists name, 0.9%float. split; [exact H|]. split; reflexivity.
    + set (content := safe_execute (pg_content pg) "") in *.
      exists (first_crossing pg content _load_ats_patterns).1,
             (first_crossing pg content _load_ats_patterns).2.
      rewrite <- surjective_pairing. split; [exact H|].
      rewrite bool_decide_eq_false_2 by (intros [? ?]; discriminate).
      unfold first_crossing.
      destruct (List.find _ _load_ats_patterns) as [[n p]|] eqn:Hf;
        [|split; reflexivity].
      apply find_some in Hf as [Hin _].
      pose proof catalog_small as Hs. rewrite forallb_forall in Hs.
      exact (weighted_score_off_marks pg content (n, p) (Hs _ Hin)).
  - exists "generic", 0.1%float. split; [exact H|]. split; reflexivity.
Qed.

(** * The entry points *)

(** ** [optimize_job_application] and [save_optimization_data] *)

Module OptimizerEntry.

(** [_load_success_patterns]. *)
Definition _load_success_patterns : list (string * list string) :=
  [ ("success_indicators",
     [ "application submitted"; "thank you for applying"; "application received";
       "we have received your application"; "application complete";
       "successfully submitted" ]);
    ("failure_indicators",
     [ "error occurred"; "please try again"; "required field"; "invalid format";
       "file too large"; "unsupported file type" ]);
    ("manual_review_indicators",
     [ "captcha"; "verify you are human"; "security check";
       "additional information required"; "please complete"; "screening questions" ]) ].

(** The dictionary [save_optimization_data] dumps. *)
Record snapshot := {
  s_timestamp : string;
  s_metrics : ApplicationMetrics;
  s_ats_patterns : list (string * ATSPattern);
  s_form_field_mappings : list (string * field_mapping);
  s_success_patterns : list (string * list string)
}.

(** A path as [pathlib] holds it: the directories and the file name. *)
Record file_path := { fp_dirs : list string; fp_name : string }.

(** The file system and the wall clock of a save: the text of
    [datetime.now().isoformat()], and whether creating the directory and
    writing the file go through. *)
Record disk := {
  dk_now : string;
  dk_write : file_path -> snapshot -> res unit
}.

(** [save_optimization_data] of an optimizer for [profile_name] whose metrics
    are [metrics]: what was written, or nothing when the attempt raised (the
    failure is printed and dropped). *)
Definition save_optimization_data (profile_name : string) (metrics : ApplicationMetrics)
  (dk : disk) : option (file_path * snapshot) :=
  let data_file :=
    {| fp_dirs := ["output"; "optimization_data"];
       fp_name := profile_name +:+ "_optimization.json" |} in
  let optimization_data :=
    {| s_timestamp := dk_now dk; s_metrics := metrics;
       s_ats_patterns := _load_ats_patterns;
       s_form_field_mappings := _load_form_mappings;
       s_success_patterns := _load_success_patterns |} in
  match dk_write dk data_file optimization_data with
  | Ok _ => Some (data_file, optimization_data)
  | Raise _ => None
  end.

(** [optimize_job_application]: a new optimizer is built (opening the job
    database may raise), the flow is run on it, its data are saved and the
    result is returned. *)
Definition optimize_job_application (profile_name : string) (get_job_db : res unit)
  (job : a_job) (profile : a_profile) (pg : page) (clock : a_clock) (dk : disk)
  : res (result * page * option (file_path * snapshot)) :=
  bind get_job_db (fun _ =>
  let metrics := new_metrics in
  bind (optimize_application_flow metrics job profile pg clock) (fun out =>
  let '(r, pg', metrics') := out in
  Ok (r, pg', save_optimization_data profile_name metrics' dk))).

End OptimizerEntry.

Import OptimizerEntry.


(** ** [apply_from_csv], [load_profile] and [display_jobs_preview] *)

Module CsvEntry.

(** [s[:n]] on a string, [n] not negative. *)
Fixpoint str_take (n : nat) (s : string) : string :=
  match n, s with
  | S k, String c t => String c (str_take k t)
  | _, _ => EmptyString
  end.

(** [l[:k]] on a list, for any integer [k]: a negative [k] counts from the
    end. *)
Definition slice_to {A} (k : Z) (l : list A) : list A :=
  if (0 <=? k)%Z then take (Z.to_nat k) l
  else take (length l - Z.to_nat (- k)) l.

(** [job[key]]. *)
Definition job_index (job : a_job) (key : string) : res string :=
  match job !! key with
  | Some v => Ok v
  | None => Raise (key_error key)
  end.

(** The URL as the preview shows it. *)
Definition shown_url (url : string) : string :=
  if (50 <? String.length url)%nat then str_take 47 url +:+ "..." else url.

(** One row of the preview table. *)
Definition preview_row (job : a_job) : res (string * string * string * string) :=
  bind (job_index job "title") (fun title =>
  bind (job_index job "company") (fun company =>
  bind (job_index job "location") (fun location =>
  bind (job_index job "url") (fun url =>
    Ok (title, company, location, shown_url url))))).

Fixpoint preview_rows (jobs : list a_job)
  : res (list (string * string * string * string)) :=
  match jobs with
  | [] => Ok []
  | job :: rest =>
      bind (preview_row job) (fun row =>
      bind (preview_rows rest) (fun rows => Ok (row :: rows)))
  end.

(** [display_jobs_preview]: the rows of the table it prints (none for an
    empty list, which only gets a message). *)
Definition display_jobs_preview (jobs : list a_job) (limit : Z)
  : res (list (string * string * string * string)) :=
  match jobs with
  | [] => Ok []
  | _ => preview_rows (slice_to limit jobs)
  end.

(** What a run of the command line finds around it: whether each of the two
    profile files exists, what [utils.load_profile] answers, what
    [load_session] does (the applicator of this file defines no such method),
    the CSV file, and the line typed at the prompt ([input] raises at the end
    of the input). *)
Record cli (W : Type) := {
  cl_profile_json : bool;
  cl_named_json : bool;
  cl_utils_load_profile : res a_profile;
  cl_load_session : W -> res unit * W;
  cl_csv : res csv_file;
  cl_input : res string
}.
Arguments cl_profile_json {W}.
Arguments cl_named_json {W}.
Arguments cl_utils_load_profile {W}.
Arguments cl_load_session {W}.
Arguments cl_csv {W}.
Arguments cl_input {W}.

(** [load_profile]: whether it succeeded, and [self.profile] afterwards. *)
Definition load_profile {W} (c : cli W) : bool * a_profile :=
  if cl_profile_json c || cl_named_json c then
    match cl_utils_load_profile c with
    | Ok p => (true, p)
    | Raise _ => (false, None)
    end
  else (false, None).

(** [apply_from_csv]: the exit code, or the exception that escapes, and the
    world afterwards; [None] when the batch runner ran out of passes. *)
Definition apply_from_csv {W Sub} (svc : services W Sub) (c : cli W)
  (ats : string) (delay : nat) (preview : bool) (limit : option Z) (w : W)
  : option (res nat * W) :=
  let '(loaded, profile) := load_profile c in
  if negb loaded then Some (Ok 1, w)
  else
    match cl_load_session c w with
    | (Raise e, w) => Some (Raise e, w)
    | (Ok _, w) =>
        match (read_csv_jobs (cl_csv c)).1 with
        | [] => Some (Ok 1, w)
        | job :: rest =>
            let jobs := job :: rest in
            let jobs :=
              match limit with
              | Some k => if (k =? 0)%Z then jobs else slice_to k jobs
              | None => jobs
              end in
            match display_jobs_preview jobs 10 with
            | Raise e => Some (Raise e, w)
            | Ok _ =>
                if preview then Some (Ok 0, w)
                else
                  match filter_applied_jobs jobs with
                  | [] => Some (Ok 0, w)
                  | job :: rest =>
                      match cl_input c with
                      | Raise e => Some (Raise e, w)
                      | Ok line =>
                          if negb (String.eqb (lower (strip line)) "y")
                          then Some (Ok 0, w)
                          else
                            match apply_to_jobs svc profile (job :: rest) ats delay w with
                            | None => None
                            | Some (st, w) =>
                                Some (Ok (if (0 <? applied st) || (0 <? manual st)
                                          then 0 else 1), w)
                            end
                      end
                  end
            end
        end
    end.

End CsvEntry.

Import CsvEntry.

Lemma str_take_length n : ∀ s, String.length (str_take n s) = Nat.min n (String.length s).
Proof.
  induction n as [|n IH]; intros s; [reflexivity|].
  destruct s as [|c t]; [reflexivity|]. cbn [str_take String.length]. rewrite IH.
  reflexivity.
Qed.

Lemma append_length s1 s2 :
  String.length (s1 +:+ s2) = String.length s1 + String.length s2.
Proof.
  induction s1 as [|c t IH]; [reflexivity|]. simpl. f_equal. exact IH.
Qed.

(** The preview never shows more than fifty characters of a URL, and shows
    the URL itself when it has no more than that. *)
Lemma shown_url_length url :
  String.length (shown_url url) ≤ 50
  ∧ (String.length url ≤ 50 → shown_url url = url).
Proof.
  unfold shown_url. destruct (50 <? String.length url) eqn:Hlong.
  - apply Nat.ltb_lt in Hlong. rewrite append_length, str_take_length.
    cbn [String.length]. split; lia.
  - apply Nat.ltb_ge in Hlong. split; [lia|reflexivity].
Qed.

Lemma preview_rows_ok jobs :
  Forall well_read jobs →
  ∃ rows,
    preview_rows jobs = Ok rows
    ∧ length rows = length jobs
    ∧ Forall (λ row : string * string * string * string, String.length row.2 ≤ 50) rows.
Proof.
  induction 1 as [|job jobs Hjob _ IH].
  - exists []. cbn. auto.
  - destruct IH as (rows & Hrows & Hlen & Hall).
    destruct Hjob as ((url & Hurl & _) & _ & [title Ht] & [company Hc]
                      & [location Hl] & _).
    cbn [preview_rows]. unfold preview_row, job_index.
    rewrite Ht, Hc, Hl, Hurl. cbn [bind]. rewrite Hrows. cbn [bind].
    eexists. split; [reflexivity|]. cbn [length]. split; [lia|].
    constructor; [apply shown_url_length|exact Hall].
Qed.

Lemma slice_to_well_read k jobs :
  Forall well_read jobs → Forall well_read (slice_to k jobs).
Proof.
  intros H. unfold slice_to. destruct (0 <=? k)%Z; apply Forall_take; exact H.
Qed.

Lemma display_ok jobs limit :
  Forall well_read jobs →
  ∃ rows,
    display_jobs_preview jobs limit = Ok rows
    ∧ length rows = length (slice_to limit jobs)
    ∧ Forall (λ row : string * string * string * string, String.length row.2 ≤ 50) rows.
Proof.
  intros H. unfold display_jobs_preview. destruct jobs as [|job jobs].
  - exists []. split; [reflexivity|]. split; [|constructor].
    unfold slice_to. destruct (0 <=? limit)%Z; rewrite take_nil; reflexivity.
  - apply preview_rows_ok, slice_to_well_read, H.
Qed.


(** The world [apply_from_csv] leaves when it does not reach the batch
    runner: the one [load_session] left, or the initial one when no profile
    could be loaded. *)
Definition world_before_batch {W} (c : cli W) (w : W) : W :=
  if (load_profile c).1 then (cl_load_session c w).2 else w.


(** A run of the command line with a session to load and the CSV file of the
    scenario. *)
Definition a_cli : cli unit :=
  {| cl_profile_json := true; cl_named_json := false;
     cl_utils_load_profile := Ok (Some a_candidate);
     cl_load_session := λ w, (Ok tt, w);
     cl_csv := Ok two_rows_csv;
     cl_input := Ok " N " |}.

